(** * lar-mcp: the MCP tool handlers of [src/main.ts] and [src/utils/login.ts]

    A shallow embedding of the twelve tool handlers registered with
    [server.tool], of [loginAPI] and [getUserId], and of the pieces of the
    JavaScript platform they lean on.

    - JavaScript strings are [string]: the text in UTF-8.  Every string
      operation of the handlers ([split], [startsWith], [substring(6)],
      [includes]) works with ASCII needles, for which the UTF-8 bytes and
      the UTF-16 code units of a text are cut at the same places.
    - JSON values are [JSValue]; numbers are integers ([Z]): the numbers
      the handlers look at are identifiers and HTTP status codes.
    - A handler runs in the monad [M]: it reads the [World] (environment
      variables, the backend's answers, the clock), appends every network
      call to a log, and completes normally or throws an [Error].
    - [JSON.parse], [JSON.stringify(_, null, 2)], [encodeURIComponent] and
      [new Date(s).toISOString()] are taken from a [Runtime]. *)

From Stdlib Require Import ZArith NArith List Bool Lia.
From Stdlib.Strings Require Import String Ascii Byte.
From Stdlib Require Import DecimalString.
Import ListNotations.
Local Open Scope list_scope.
Local Open Scope string_scope.

(** ** Text *)

Module Text.

(** The double quote character, for the messages that quote a name. *)
Definition dquote : string := String (ascii_of_nat 34) EmptyString.

(** Line feed. *)
Definition LF : string := String (ascii_of_nat 10) EmptyString.

(** Template-literal rendering of an integer: its decimal digits, as
    JavaScript prints the integers below [10^21].  From there on JavaScript
    prints an exponent ([1e+21]), which this rendering does not follow: an
    identifier or a status that large is outside what is modelled. *)
Definition of_Z (z : Z) : string := NilZero.string_of_int (Z.to_int z).

Definition of_pos (p : positive) : string := of_Z (Zpos p).

(** [s.length === 0] *)
Definition is_empty (s : string) : bool :=
  match s with EmptyString => true | String _ _ => false end.

(** [s.substring(n)] *)
Fixpoint drop (n : nat) (s : string) : string :=
  match n, s with
  | O, _ => s
  | S _, EmptyString => EmptyString
  | S k, String _ rest => drop k rest
  end.

(** [hay.includes(needle)] *)
Fixpoint includes (needle hay : string) : bool :=
  prefix needle hay ||
  match hay with
  | EmptyString => false
  | String _ rest => includes needle rest
  end.

Definition lower_ascii (c : ascii) : ascii :=
  let n := nat_of_ascii c in
  if (65 <=? n)%nat && (n <=? 90)%nat then ascii_of_nat (n + 32) else c.

(** [s.toLowerCase()], on the ASCII letters.  The one test made on the
    result is [includes('pdf')], and no character outside ASCII lowers to
    [p], [d] or [f]. *)
Fixpoint toLowerCase (s : string) : string :=
  match s with
  | EmptyString => EmptyString
  | String c rest => String (lower_ascii c) (toLowerCase rest)
  end.

Definition rev (s : string) : string :=
  string_of_list_ascii (List.rev (list_ascii_of_string s)).

(** [s.split(sep)] for a non-empty separator: the pieces between the
    occurrences of [sep], found left to right without overlap.  [skip]
    counts the characters of a separator still to be passed over and [cur]
    holds the current piece, reversed. *)
Fixpoint split_go (sep : string) (skip : nat) (cur : string) (s : string)
  : list string :=
  match s with
  | EmptyString => [rev cur]
  | String c rest =>
      match skip with
      | S k => split_go sep k cur rest
      | O =>
          if prefix sep s
          then rev cur :: split_go sep (String.length sep - 1) EmptyString rest
          else split_go sep O (String c cur) rest
      end
  end.

Definition split (sep s : string) : list string := split_go sep O EmptyString s.

(** Concatenation of a list of strings, in order. *)
Definition concat_all (l : list string) : string := String.concat "" l.

End Text.

(** ** UTF-8 decoding

    The decoder of the WHATWG Encoding standard (it is the one behind
    [TextDecoder], [Response.text()] and, but for the byte order mark,
    [Buffer.toString()]).  The model keeps the bytes of the sequence being
    read instead of the code point they add up to, and emits a well-formed
    sequence as it came: texts are kept in UTF-8.  An ill-formed sequence
    is emitted as U+FFFD. *)

Module Utf8.

Record State := mkState {
  pending : list byte;   (* bytes of the sequence being read *)
  needed : nat;          (* continuation bytes still expected *)
  lower : N;             (* bounds of the next continuation byte *)
  upper : N;
  bom_seen : bool        (* a first code point has been emitted *)
}.

(** [new TextDecoder()]: UTF-8, [ignoreBOM] false. *)
Definition init : State := mkState [] 0 128 191 false.

(** A decoder that leaves a byte order mark in place. *)
Definition init_keep_bom : State := mkState [] 0 128 191 true.

Definition replacement : list byte := [xef; xbf; xbd].
Definition bom : list byte := [xef; xbb; xbf].

Definition bytes_eqb (a b : list byte) : bool :=
  if list_eq_dec Byte.byte_eq_dec a b then true else false.

(** Emit one code point, given by its bytes: the first one of a stream is
    dropped when it is the byte order mark. *)
Definition emit (st : State) (cp : list byte) : State * list byte :=
  let st' := mkState [] 0 128 191 true in
  if bom_seen st then (st', cp)
  else if bytes_eqb cp bom then (st', []) else (st', cp).

Definition in_range (lo hi n : N) : bool := (lo <=? n)%N && (n <=? hi)%N.

(** A byte read with no sequence in progress. *)
Definition start (st : State) (b : byte) : State * list byte :=
  let n := Byte.to_N b in
  if (n <=? 127)%N then emit st [b]
  else if in_range 194 223 n then
    (mkState [b] 1 128 191 (bom_seen st), [])
  else if in_range 224 239 n then
    (mkState [b] 2 (if (n =? 224)%N then 160 else 128)
                   (if (n =? 237)%N then 159 else 191) (bom_seen st), [])
  else if in_range 240 244 n then
    (mkState [b] 3 (if (n =? 240)%N then 144 else 128)
                   (if (n =? 244)%N then 143 else 191) (bom_seen st), [])
  else emit st replacement.

(** One byte through the decoder.  A byte that breaks a sequence ends it
    with U+FFFD and is read again as the start of the next one. *)
Definition step (st : State) (b : byte) : State * list byte :=
  match needed st with
  | O => start st b
  | S k =>
      if in_range (lower st) (upper st) (Byte.to_N b) then
        match k with
        | O => emit st (pending st ++ [b])%list
        | S _ => (mkState (pending st ++ [b])%list k 128 191 (bom_seen st), [])
        end
      else
        let (st1, o1) := emit st replacement in
        let (st2, o2) := start st1 b in
        (st2, (o1 ++ o2)%list)
  end.

Fixpoint run (st : State) (bs : list byte) : State * list byte :=
  match bs with
  | [] => (st, [])
  | b :: rest =>
      let (st1, o1) := step st b in
      let (st2, o2) := run st1 rest in
      (st2, (o1 ++ o2)%list)
  end.

(** [decoder.decode(chunk, { stream: true })]: the text of the sequences
    completed by [chunk]; an unfinished sequence waits in the state. *)
Definition decode_stream (st : State) (chunk : list byte) : State * string :=
  let (st', out) := run st chunk in (st', string_of_list_byte out).

(** End of input: a sequence left unfinished becomes U+FFFD. *)
Definition flush (st : State) : list byte :=
  match needed st with
  | O => []
  | S _ => snd (emit st replacement)
  end.

Definition decode_all (st : State) (bs : list byte) : string :=
  let (st', out) := run st bs in string_of_list_byte (out ++ flush st')%list.

End Utf8.

(** ** JavaScript values *)

#[warnings="-register-all"]
Inductive JSValue :=
| JUndefined
| JNull
| JBool (b : bool)
| JNum (n : Z)
| JStr (s : string)
| JArr (items : list JSValue)
| JObj (fields : list (string * JSValue)).

(** The three values of the [status] enumeration of the case tools. *)
Inductive Status := Open | Closed | Pending.

Module JS.

(** [Boolean(v)]: what [if (v)], [!v] and [v || w] test. *)
Definition truthy (v : JSValue) : bool :=
  match v with
  | JUndefined | JNull => false
  | JBool b => b
  | JNum n => negb (n =? 0)%Z
  | JStr s => negb (Text.is_empty s)
  | JArr _ | JObj _ => true
  end.

(** [`${v}`] *)
Fixpoint toString (v : JSValue) : string :=
  match v with
  | JUndefined => "undefined"
  | JNull => "null"
  | JBool true => "true"
  | JBool false => "false"
  | JNum n => Text.of_Z n
  | JStr s => s
  | JArr items =>
      (fix join (l : list JSValue) : string :=
         match l with
         | [] => ""
         | x :: rest =>
             let here :=
               match x with
               | JUndefined | JNull => ""
               | _ => toString x
               end in
             match rest with
             | [] => here
             | _ :: _ => here ++ "," ++ join rest
             end
         end) items
  | JObj _ => "[object Object]"
  end.

(** An optional argument of a tool: [undefined] when it was not given. *)
Definition of_option {A} (inj : A -> JSValue) (o : option A) : JSValue :=
  match o with Some a => inj a | None => JUndefined end.

Definition of_status (s : Status) : JSValue :=
  JStr match s with Open => "Open" | Closed => "Closed" | Pending => "Pending" end.

Definition of_pos (p : positive) : JSValue := JNum (Zpos p).

(** The value of property [k] among the properties of an object. *)
Fixpoint field (k : string) (fields : list (string * JSValue)) : JSValue :=
  match fields with
  | [] => JUndefined
  | (k', v) :: rest => if (k =? k')%string then v else field k rest
  end.

(** [obj[k] = v]: in place when the property exists, at the end otherwise. *)
Fixpoint set_field (k : string) (v : JSValue) (fields : list (string * JSValue))
  : list (string * JSValue) :=
  match fields with
  | [] => [(k, v)]
  | (k', v') :: rest =>
      if (k =? k')%string then (k, v) :: rest else (k', v') :: set_field k v rest
  end.

(** [Array.isArray(v)] *)
Definition isArray (v : JSValue) : bool :=
  match v with JArr _ => true | _ => false end.

(** [v.length] of an array. *)
Definition array_length (v : JSValue) : nat :=
  match v with JArr items => List.length items | _ => O end.

End JS.

(** ** Errors and completions *)

(** A thrown [Error] (an [Error], [TypeError], [SyntaxError] or
    [AxiosError] alike): the handlers read its [message] only. *)
Record Error := mkError { error_message : string }.

Inductive Completion (A : Type) :=
| Normal (a : A)
| Throw (e : Error).
Arguments Normal {A} a.
Arguments Throw {A} e.

(** [v.k] for a property [k] that no prototype defines: a [TypeError] on
    [null] and [undefined], [undefined] on the other primitives and on
    arrays (messages as V8 words them). *)
Definition get_prop (v : JSValue) (k : string) : Completion JSValue :=
  match v with
  | JObj fields => Normal (JS.field k fields)
  | JNull =>
      Throw (mkError ("Cannot read properties of null (reading '" ++ k ++ "')"))
  | JUndefined =>
      Throw (mkError ("Cannot read properties of undefined (reading '" ++ k ++ "')"))
  | _ => Normal JUndefined
  end.

(** ** The functions taken from the JavaScript runtime *)

Record Runtime := {
  (** [JSON.parse(text)]: the value, or the message of the [SyntaxError] *)
  JSON_parse : string -> string + JSValue;
  (** [JSON.stringify(v, null, 2)] of a value that came out of [JSON.parse] *)
  JSON_stringify : JSValue -> string;
  encodeURIComponent : string -> string;
  (** [new Date(s)]: [None] for an invalid date ([isNaN(date.getTime())]),
      otherwise [date.toISOString()] *)
  Date_toISOString : string -> option string
}.

(** ** HTTP *)

Inductive Method := GET | POST | PUT | DELETE.

Inductive FormPart :=
| FormText (value : string)
| FormFile (bytes : list byte) (type filename : string).

(** The body of a request; [JsonBody v] stands for the text
    [JSON.stringify(v)], in which a property whose value is [undefined]
    does not appear. *)
Inductive RequestBody :=
| NoBody
| JsonBody (v : JSValue)
| FormBody (parts : list (string * FormPart)).

Record Request := mkRequest {
  method : Method;
  url : string;
  headers : list (string * string);
  body : RequestBody
}.

(** One [reader.read()] of a response body that has not ended. *)
Inductive Read :=
| Chunk (value : list byte)
| ReadFailed (message : string).

(** A response: [stream] is [response.body], [None] for a null body,
    otherwise the reads it delivers before it reports [done]. *)
Record Response := mkResponse {
  status : Z;
  content_type : option string;
  stream : option (list Read)
}.

Inductive FetchOutcome :=
| FetchRejected (message : string)
| FetchResolved (response : Response).

(** What [axios.get] and [axios.post] settle to: a rejection (network
    failure, status outside 2xx), or a response whose [data] is given. *)
Inductive AxiosOutcome :=
| AxiosRejected (message : string)
| AxiosResolved (data : JSValue).

Inductive NetCall :=
| ViaFetch (request : Request)
| ViaAxios (request : Request).

(** [process.env] *)
Record Env := mkEnv {
  API_URL : option string;
  API_EMAIL : option string;
  API_PASSWORD : option string
}.

(** Everything outside the handler: the environment, the answer to the
    [n]-th network call of the process, the clock. *)
Record World := mkWorld {
  env : Env;
  fetch_answer : nat -> Request -> FetchOutcome;
  axios_answer : nat -> Request -> AxiosOutcome;
  now_iso : string
}.

(** ** The handler monad *)

Definition M (A : Type) : Type :=
  World -> list NetCall -> Completion A * list NetCall.

Definition ret {A} (a : A) : M A := fun _ log => (Normal a, log).

Definition throw {A} (e : Error) : M A := fun _ log => (Throw e, log).

Definition bind {A B} (m : M A) (k : A -> M B) : M B :=
  fun w log =>
    match m w log with
    | (Normal a, log') => k a w log'
    | (Throw e, log') => (Throw e, log')
    end.

(** [try { m } catch (error) { handler }] *)
Definition try_catch {A} (m : M A) (handler : Error -> M A) : M A :=
  fun w log =>
    match m w log with
    | (Normal a, log') => (Normal a, log')
    | (Throw e, log') => handler e w log'
    end.

Definition lift {A} (c : Completion A) : M A := fun _ log => (c, log).

Definition getenv : M Env := fun w log => (Normal (env w), log).

Definition now : M string := fun w log => (Normal (now_iso w), log).

Notation "x <- m ;; k" := (bind m (fun x => k))
  (at level 61, m at next level, right associativity).

(** [await fetch(url, init)] *)
Definition fetch (request : Request) : M Response :=
  fun w log =>
    (match fetch_answer w (List.length log) request with
     | FetchRejected msg => Throw (mkError msg)
     | FetchResolved response => Normal response
     end, (log ++ [ViaFetch request])%list).

(** [(await axios(request)).data] *)
Definition axios (request : Request) : M JSValue :=
  fun w log =>
    (match axios_answer w (List.length log) request with
     | AxiosRejected msg => Throw (mkError msg)
     | AxiosResolved data => Normal data
     end, (log ++ [ViaAxios request])%list).

(** ** Reading a response *)

(** [response.ok] *)
Definition ok (response : Response) : bool :=
  (200 <=? status response)%Z && (status response <=? 299)%Z.

(** The whole body, read to its end. *)
Fixpoint read_all (reads : list Read) : Completion (list byte) :=
  match reads with
  | [] => Normal []
  | Chunk value :: rest =>
      match read_all rest with
      | Normal bs => Normal (value ++ bs)%list
      | Throw e => Throw e
      end
  | ReadFailed msg :: _ => Throw (mkError msg)
  end.

(** [await response.arrayBuffer()] *)
Definition arrayBuffer (response : Response) : Completion (list byte) :=
  match stream response with
  | None => Normal []
  | Some reads => read_all reads
  end.

(** [await response.text()] *)
Definition text (response : Response) : Completion string :=
  match arrayBuffer response with
  | Normal bs => Normal (Utf8.decode_all Utf8.init bs)
  | Throw e => Throw e
  end.

(** [Buffer.from(bytes).toString()] *)
Definition Buffer_toString (bs : list byte) : string :=
  Utf8.decode_all Utf8.init_keep_bom bs.

(** [{ content: [{ type: "text", text }], ...extra }] *)
Record ContentItem := mkContent { c_type : string; c_text : string }.

Record ToolResult := mkResult {
  content : list ContentItem;
  extra : list (string * JSValue)
}.

Definition text_result (t : string) : ToolResult :=
  mkResult [mkContent "text" t] [].

(** ** [src/utils/login.ts] *)

(** [!s] for an environment variable: unset or empty. *)
Definition missing (s : option string) : bool :=
  match s with
  | None => true
  | Some v => Text.is_empty v
  end.

(** [`${s}`] for an environment variable. *)
Definition env_text (s : option string) : string :=
  match s with
  | None => "undefined"
  | Some v => v
  end.

Definition config_error : string :=
  "Faltan las variables de entorno API_URL, API_EMAIL o API_PASSWORD".

Definition loginAPI : M JSValue :=
  e <- getenv ;;
  let apiUrl := API_URL e in
  let email := API_EMAIL e in
  let pass := API_PASSWORD e in
  if missing apiUrl || missing email || missing pass then
    throw (mkError config_error)
  else
    let url := env_text apiUrl ++ "/api/auth/login" in
    data <- axios (mkRequest POST url []
                     (JsonBody (JObj [("email", JStr (env_text email));
                                      ("password", JStr (env_text pass))]))) ;;
    lift (get_prop data "token").

Definition bearer (token : JSValue) : string := "Bearer " ++ JS.toString token.

Definition getUserId : M JSValue :=
  token <- loginAPI ;;
  e <- getenv ;;
  let url := env_text (API_URL e) ++ "/api/auth/user-id" in
  data <- axios (mkRequest GET url [("Authorization", bearer token)] NoBody) ;;
  lift (get_prop data "userId").

(** ** [src/main.ts] *)

(** [process.env.API_URL ? `${process.env.API_URL}${path}`
                         : `http://localhost:3000${path}`] *)
Definition api_url (e : Env) (path : string) : string :=
  if missing (API_URL e) then "http://localhost:3000" ++ path
  else env_text (API_URL e) ++ path.

Definition endpoint (path : string) : M string :=
  e <- getenv ;;
  ret (api_url e path).

(** [a || b], where [b] is evaluated only when [a] is falsy. *)
Definition or_else (a : JSValue) (b : M JSValue) : M JSValue :=
  if JS.truthy a then ret a else b.

(** [a !== undefined ? a : b] for an optional string argument. *)
Definition defined_or (a : option string) (b : M JSValue) : M JSValue :=
  match a with
  | Some s => ret (JStr s)
  | None => b
  end.

(** The string that passes [if (a)]: given and not empty. *)
Definition truthy_text (a : option string) : option string :=
  match a with
  | Some s => if Text.is_empty s then None else Some s
  | None => None
  end.

(** [if (a) fields[k] = a] for an optional string argument. *)
Definition add_if_truthy (k : string) (a : option string)
    (fields : list (string * JSValue)) : list (string * JSValue) :=
  match truthy_text a with
  | Some s => JS.set_field k (JStr s) fields
  | None => fields
  end.

(** [if (current) fields[k] = current] for a property of the fetched
    entity. *)
Definition keep_if_truthy (k : string) (current : JSValue)
    (fields : list (string * JSValue)) : list (string * JSValue) :=
  if JS.truthy current then JS.set_field k current fields else fields.

Definition json_get_headers (token : JSValue) : list (string * string) :=
  [("Authorization", bearer token); ("Accept", "application/json")].

Definition json_send_headers (token : JSValue) : list (string * string) :=
  [("Authorization", bearer token);
   ("Content-Type", "application/json");
   ("Accept", "application/json")].

(** The [catch] clause shared by the handlers, up to the words before the
    message. *)
Definition report (words : string) (error : Error) : M ToolResult :=
  ret (text_result (words ++ error_message error)).

Definition frame_delimiter : string := Text.LF ++ Text.LF.

(** [chunk.split("\n\n").filter(Boolean)] *)
Definition events_of (chunk : string) : list string :=
  filter (fun event => negb (Text.is_empty event))
         (Text.split frame_delimiter chunk).

(** The body of [for (const event of events)]. *)
Definition add_event (fullText event : string) : string :=
  if prefix "data: " event then fullText ++ Text.drop 6 event else fullText.

(** The [while (true)] loop of [lar-ask] over the reads of the body: it
    ends when the stream reports [done], that is with the list. *)
Fixpoint read_loop (reads : list Read) (decoder : Utf8.State)
    (fullText : string) : Completion string :=
  match reads with
  | [] => Normal fullText
  | ReadFailed msg :: _ => Throw (mkError msg)
  | Chunk value :: rest =>
      let (decoder', chunk) := Utf8.decode_stream decoder value in
      read_loop rest decoder' (fold_left add_event (events_of chunk) fullText)
  end.

Definition pdf_magic : string := "%PDF-".

Definition not_pdf_type : string :=
  "Solo se permiten archivos PDF. El archivo descargado no tiene tipo PDF.".

Definition not_valid_pdf : string :=
  "Solo se permiten archivos PDF. El archivo descargado no es un PDF válido.".

(** [contentType && contentType.toLowerCase().includes('pdf')], whose
    negation is the first test of [lar-upload-document]. *)
Definition has_pdf_type (contentType : option string) : bool :=
  match truthy_text contentType with
  | None => false
  | Some type => Text.includes "pdf" (Text.toLowerCase type)
  end.

Section Handlers.

Variable rt : Runtime.

(** [await response.json()] *)
Definition json (response : Response) : Completion JSValue :=
  match text response with
  | Normal t =>
      match JSON_parse rt t with
      | inr v => Normal v
      | inl msg => Throw (mkError msg)
      end
  | Throw e => Throw e
  end.

(** [try { result = JSON.parse(text) } catch { result = { raw: text } }] *)
Definition parse_or_raw (t : string) : JSValue :=
  match JSON_parse rt t with
  | inr v => v
  | inl _ => JObj [("raw", JStr t)]
  end.

Definition lar_ask_try (message : string) (fileId : positive) : M ToolResult :=
  tokenJWT <- loginAPI ;;
  apiUrl <- endpoint "/api/chat/ask" ;;
  let requestData :=
    JObj [("message", JStr message); ("fileId", JS.of_pos fileId)] in
  response <- fetch (mkRequest POST apiUrl
                       [("Authorization", bearer tokenJWT);
                        ("Content-Type", "application/json");
                        ("Accept", "text/event-stream")]
                       (JsonBody requestData)) ;;
  if negb (ok response) then
    errorText <- lift (text response) ;;
    ret (text_result ("Error al realizar la consulta: "
                      ++ Text.of_Z (status response) ++ " - " ++ errorText))
  else
    match stream response with
    | None =>
        ret (text_result
               "No se pudo iniciar la lectura de la respuesta en streaming.")
    | Some reader =>
        fullText <- lift (read_loop reader Utf8.init "") ;;
        ret (mkResult
               [mkContent "text"
                  (if Text.is_empty fullText
                   then "No se recibió respuesta del servidor."
                   else fullText)]
               [("question", JStr message); ("fileId", JS.of_pos fileId)])
    end.

Definition lar_ask (message : string) (fileId : positive) : M ToolResult :=
  try_catch (lar_ask_try message fileId) (report "Error en el proceso: ").

Definition lar_upload_document_try (name url : string) : M ToolResult :=
  response <- fetch (mkRequest GET url [] NoBody) ;;
  let contentType := content_type response in
  if negb (has_pdf_type contentType) then
    ret (text_result not_pdf_type)
  else
    arrayBuffer <- lift (arrayBuffer response) ;;
    let fileStart := Buffer_toString (firstn 5 arrayBuffer) in
    if negb (fileStart =? pdf_magic) then
      ret (text_result not_valid_pdf)
    else
      scrapedAt <- now ;;
      let formData :=
        [("Name", FormText name);
         ("File", FormFile arrayBuffer "application/pdf" name);
         ("ScrapedAt", FormText scrapedAt)] in
      apiUrl <- endpoint "/api/files" ;;
      tokenJWT <- loginAPI ;;
      uploadResponse <- fetch (mkRequest POST apiUrl
                                 [("Authorization", bearer tokenJWT)]
                                 (FormBody formData)) ;;
      text <- lift (text uploadResponse) ;;
      if negb (ok uploadResponse) then
        ret (text_result ("Error al subir el documento: "
                          ++ Text.of_Z (status uploadResponse) ++ " - " ++ text))
      else
        let result := parse_or_raw text in
        Id <- lift (get_prop result "Id") ;;
        shown <- or_else Id
                   (id <- lift (get_prop result "id") ;;
                    or_else id (ret (JStr "desconocido"))) ;;
        ret (mkResult
               [mkContent "text"
                  ("Documento subido correctamente. ID: " ++ JS.toString shown)]
               [("apiResponse", result)]).

Definition lar_upload_document (name url : string) : M ToolResult :=
  try_catch (lar_upload_document_try name url) (report "Error en el proceso: ").

Definition lar_delete_document_try (name : string) : M ToolResult :=
  tokenJWT <- loginAPI ;;
  apiUrl <- endpoint ("/api/files/" ++ encodeURIComponent rt name) ;;
  response <- fetch (mkRequest DELETE apiUrl (json_get_headers tokenJWT) NoBody) ;;
  if negb (ok response) then
    errorText <- lift (text response) ;;
    if (status response =? 404)%Z then
      ret (text_result ("No se encontró ningún documento con el nombre "
                        ++ Text.dquote ++ name ++ Text.dquote ++ "."))
    else
      ret (text_result ("Error al eliminar el documento: "
                        ++ Text.of_Z (status response) ++ " - " ++ errorText))
  else
    ret (text_result ("Documento " ++ Text.dquote ++ name ++ Text.dquote
                      ++ " eliminado correctamente.")).

Definition lar_delete_document (name : string) : M ToolResult :=
  try_catch (lar_delete_document_try name) (report "Error en el proceso: ").

Definition lar_list_documents_try : M ToolResult :=
  tokenJWT <- loginAPI ;;
  apiUrl <- endpoint "/api/files" ;;
  response <- fetch (mkRequest GET apiUrl (json_get_headers tokenJWT) NoBody) ;;
  if negb (ok response) then
    errorText <- lift (text response) ;;
    ret (text_result ("Error al obtener los documentos: "
                      ++ Text.of_Z (status response) ++ " - " ++ errorText))
  else
    documents <- lift (json response) ;;
    ret (mkResult [mkContent "text" (JSON_stringify rt documents)]
                  [("documents", documents)]).

Definition lar_list_documents : M ToolResult :=
  try_catch lar_list_documents_try (report "Error al obtener los documentos: ").

Definition lar_list_clients_try : M ToolResult :=
  tokenJWT <- loginAPI ;;
  apiUrl <- endpoint "/api/clients/user" ;;
  response <- fetch (mkRequest GET apiUrl (json_get_headers tokenJWT) NoBody) ;;
  if negb (ok response) then
    errorText <- lift (text response) ;;
    ret (text_result ("Error al obtener los clientes: "
                      ++ Text.of_Z (status response) ++ " - " ++ errorText))
  else
    clients <- lift (json response) ;;
    ret (mkResult [mkContent "text" (JSON_stringify rt clients)]
                  [("clients", clients)]).

Definition lar_list_clients : M ToolResult :=
  try_catch lar_list_clients_try (report "Error al obtener los clientes: ").

Definition lar_create_client_try (name contactInformation : string)
    (address notes : option string) : M ToolResult :=
  tokenJWT <- loginAPI ;;
  idUser <- getUserId ;;
  apiUrl <- endpoint "/api/clients" ;;
  let clientData :=
    add_if_truthy "notes" notes
      (add_if_truthy "address" address
         [("idUser", idUser);
          ("name", JStr name);
          ("contactInformation", JStr contactInformation)]) in
  response <- fetch (mkRequest POST apiUrl (json_send_headers tokenJWT)
                       (JsonBody (JObj clientData))) ;;
  text <- lift (text response) ;;
  let result := parse_or_raw text in
  if negb (ok response) then
    ret (text_result ("Error al crear el cliente: "
                      ++ Text.of_Z (status response) ++ " - " ++ text))
  else
    ret (mkResult [mkContent "text" "Cliente creado correctamente.}"]
                  [("client", result)]).

Definition lar_create_client (name contactInformation : string)
    (address notes : option string) : M ToolResult :=
  try_catch (lar_create_client_try name contactInformation address notes)
            (report "Error en el proceso: ").

Definition lar_delete_client_try (clientId : positive) : M ToolResult :=
  tokenJWT <- loginAPI ;;
  apiUrl <- endpoint ("/api/clients/" ++ Text.of_pos clientId) ;;
  response <- fetch (mkRequest DELETE apiUrl (json_get_headers tokenJWT) NoBody) ;;
  if negb (ok response) then
    errorText <- lift (text response) ;;
    if (status response =? 400)%Z && Text.includes "associated cases" errorText then
      ret (text_result "No se puede eliminar el cliente porque tiene casos asociados. Por favor, elimine primero los casos o reasígnelos a otro cliente.")
    else
      ret (text_result ("Error al eliminar el cliente: "
                        ++ Text.of_Z (status response) ++ " - " ++ errorText))
  else
    ret (text_result ("Cliente con ID " ++ Text.of_pos clientId
                      ++ " eliminado correctamente.")).

Definition lar_delete_client (clientId : positive) : M ToolResult :=
  try_catch (lar_delete_client_try clientId) (report "Error en el proceso: ").

(** The object [updatedClientData] of [lar-edit-client], in the order in
    which the handler evaluates and sets its properties. *)
Definition updatedClientData (idUser currentClient : JSValue)
    (name contactInformation address notes : option string)
  : M (list (string * JSValue)) :=
  name' <- defined_or name (lift (get_prop currentClient "name")) ;;
  contactInformation' <- defined_or contactInformation
                           (lift (get_prop currentClient "contactInformation")) ;;
  let data :=
    [("idUser", idUser);
     ("name", name');
     ("contactInformation", contactInformation')] in
  data <- match address with
          | Some a => ret (JS.set_field "address" (JStr a) data)
          | None =>
              current <- lift (get_prop currentClient "address") ;;
              ret (keep_if_truthy "address" current data)
          end ;;
  match notes with
  | Some n => ret (JS.set_field "notes" (JStr n) data)
  | None =>
      current <- lift (get_prop currentClient "notes") ;;
      ret (keep_if_truthy "notes" current data)
  end.

Definition lar_edit_client_try (clientId : positive)
    (name contactInformation address notes : option string) : M ToolResult :=
  tokenJWT <- loginAPI ;;
  apiUrl <- endpoint ("/api/clients/" ++ Text.of_pos clientId) ;;
  getResponse <- fetch (mkRequest GET apiUrl (json_get_headers tokenJWT) NoBody) ;;
  if negb (ok getResponse) then
    errorText <- lift (text getResponse) ;;
    ret (text_result ("Error al obtener el cliente para editar: "
                      ++ Text.of_Z (status getResponse) ++ " - " ++ errorText))
  else
    currentClient <- lift (json getResponse) ;;
    idUser <- getUserId ;;
    data <- updatedClientData idUser currentClient
              name contactInformation address notes ;;
    response <- fetch (mkRequest PUT apiUrl (json_send_headers tokenJWT)
                         (JsonBody (JObj data))) ;;
    text <- lift (text response) ;;
    let result := parse_or_raw text in
    if negb (ok response) then
      ret (text_result ("Error al actualizar el cliente: "
                        ++ Text.of_Z (status response) ++ " - " ++ text))
    else
      ret (mkResult
             [mkContent "text" ("Cliente con ID " ++ Text.of_pos clientId
                                ++ " actualizado correctamente.")]
             [("client", result)]).

Definition lar_edit_client (clientId : positive)
    (name contactInformation address notes : option string) : M ToolResult :=
  try_catch (lar_edit_client_try clientId name contactInformation address notes)
            (report "Error en el proceso: ").

Definition lar_list_cases_try : M ToolResult :=
  tokenJWT <- loginAPI ;;
  apiUrl <- endpoint "/api/cases" ;;
  response <- fetch (mkRequest GET apiUrl (json_get_headers tokenJWT) NoBody) ;;
  if negb (ok response) then
    errorText <- lift (text response) ;;
    ret (text_result ("Error al obtener los casos: "
                      ++ Text.of_Z (status response) ++ " - " ++ errorText))
  else
    cases <- lift (json response) ;;
    if negb (JS.isArray cases) || (JS.array_length cases =? 0)%nat then
      ret (text_result "No hay casos disponibles en el sistema.")
    else
      ret (mkResult [mkContent "text" (JSON_stringify rt cases)]
                    [("cases", cases)]).

Definition lar_list_cases : M ToolResult :=
  try_catch lar_list_cases_try (report "Error al obtener los casos: ").

Definition invalid_date : string :=
  "Formato de fecha inválido. Por favor, usa el formato YYYY-MM-DD o YYYY-MM-DDTHH:MM:SS±HH:MM.".

Definition lar_create_case_try (title : string) (description : option string)
    (status_ : Status) (courtDate : option string) (clientId : positive)
  : M ToolResult :=
  tokenJWT <- loginAPI ;;
  assignedUserId <- getUserId ;;
  apiUrl <- endpoint "/api/cases" ;;
  let caseData :=
    add_if_truthy "description" description
      [("title", JStr title);
       ("assignedUserId", assignedUserId);
       ("clientId", JS.of_pos clientId);
       ("status", JS.of_status status_)] in
  let send (caseData : list (string * JSValue)) : M ToolResult :=
    response <- fetch (mkRequest POST apiUrl (json_send_headers tokenJWT)
                         (JsonBody (JObj caseData))) ;;
    text <- lift (text response) ;;
    let result := parse_or_raw text in
    if negb (ok response) then
      ret (text_result ("Error al crear el caso: "
                        ++ Text.of_Z (status response) ++ " - " ++ text))
    else
      ret (mkResult [mkContent "text" "Caso creado correctamente."]
                    [("case", result)]) in
  match truthy_text courtDate with
  | Some given =>
      match Date_toISOString rt given with
      | None => ret (text_result invalid_date)
      | Some iso => send (JS.set_field "courtDate" (JStr iso) caseData)
      end
  | None => send caseData
  end.

Definition lar_create_case (title : string) (description : option string)
    (status_ : Status) (courtDate : option string) (clientId : positive)
  : M ToolResult :=
  try_catch (lar_create_case_try title description status_ courtDate clientId)
            (report "Error en el proceso: ").

Definition lar_delete_case_try (caseId : positive) : M ToolResult :=
  tokenJWT <- loginAPI ;;
  apiUrl <- endpoint ("/api/cases/" ++ Text.of_pos caseId) ;;
  response <- fetch (mkRequest DELETE apiUrl (json_get_headers tokenJWT) NoBody) ;;
  if negb (ok response) then
    errorText <- lift (text response) ;;
    ret (text_result ("Error al eliminar el caso: "
                      ++ Text.of_Z (status response) ++ " - " ++ errorText))
  else
    ret (text_result ("Caso con ID " ++ Text.of_pos caseId
                      ++ " eliminado correctamente.")).

Definition lar_delete_case (caseId : positive) : M ToolResult :=
  try_catch (lar_delete_case_try caseId) (report "Error en el proceso: ").

(** The object literal [updatedCaseData] of [lar-edit-case]; its last
    property may call [getUserId]. *)
Definition updatedCaseData (currentCase : JSValue)
    (title description : option string) (status_ : option Status)
    (clientId assignedUserId : option positive)
  : M (list (string * JSValue)) :=
  title' <- or_else (JS.of_option JStr title)
              (lift (get_prop currentCase "title")) ;;
  description' <- defined_or description
                    (lift (get_prop currentCase "description")) ;;
  status' <- or_else (JS.of_option JS.of_status status_)
               (lift (get_prop currentCase "status")) ;;
  clientId' <- or_else (JS.of_option JS.of_pos clientId)
                 (lift (get_prop currentCase "clientId")) ;;
  assignedUserId' <- or_else (JS.of_option JS.of_pos assignedUserId) getUserId ;;
  ret [("title", title');
       ("description", description');
       ("status", status');
       ("clientId", clientId');
       ("assignedUserId", assignedUserId')].

Definition lar_edit_case_try (caseId : positive)
    (title description : option string) (status_ : option Status)
    (courtDate : option string) (clientId assignedUserId : option positive)
  : M ToolResult :=
  tokenJWT <- loginAPI ;;
  apiUrl <- endpoint ("/api/cases/" ++ Text.of_pos caseId) ;;
  getResponse <- fetch (mkRequest GET apiUrl (json_get_headers tokenJWT) NoBody) ;;
  if negb (ok getResponse) then
    errorText <- lift (text getResponse) ;;
    ret (text_result ("Error al obtener el caso para editar: "
                      ++ Text.of_Z (status getResponse) ++ " - " ++ errorText))
  else
    currentCase <- lift (json getResponse) ;;
    data <- updatedCaseData currentCase title description status_
              clientId assignedUserId ;;
    let send (data : list (string * JSValue)) : M ToolResult :=
      response <- fetch (mkRequest PUT apiUrl (json_send_headers tokenJWT)
                           (JsonBody (JObj data))) ;;
      text <- lift (text response) ;;
      let result := parse_or_raw text in
      if negb (ok response) then
        ret (text_result ("Error al actualizar el caso: "
                          ++ Text.of_Z (status response) ++ " - " ++ text))
      else
        ret (mkResult
               [mkContent "text" ("Caso con ID " ++ Text.of_pos caseId
                                  ++ " actualizado correctamente.")]
               [("case", result)]) in
    match truthy_text courtDate with
    | Some given =>
        match Date_toISOString rt given with
        | None => ret (text_result invalid_date)
        | Some iso => send (JS.set_field "courtDate" (JStr iso) data)
        end
    | None =>
        current <- lift (get_prop currentCase "courtDate") ;;
        send (keep_if_truthy "courtDate" current data)
    end.

Definition lar_edit_case (caseId : positive)
    (title description : option string) (status_ : option Status)
    (courtDate : option string) (clientId assignedUserId : option positive)
  : M ToolResult :=
  try_catch (lar_edit_case_try caseId title description status_ courtDate
               clientId assignedUserId)
            (report "Error en el proceso: ").

(** The tools registered with [server.tool], with the arguments the
    schema of each lets through. *)
Inductive ToolCall :=
| LarAsk (message : string) (fileId : positive)
| LarUploadDocument (name url : string)
| LarDeleteDocument (name : string)
| LarListDocuments
| LarListClients
| LarCreateClient (name contactInformation : string)
    (address notes : option string)
| LarDeleteClient (clientId : positive)
| LarEditClient (clientId : positive)
    (name contactInformation address notes : option string)
| LarListCases
| LarCreateCase (title : string) (description : option string)
    (status_ : Status) (courtDate : option string) (clientId : positive)
| LarDeleteCase (caseId : positive)
| LarEditCase (caseId : positive) (title description : option string)
    (status_ : option Status) (courtDate : option string)
    (clientId assignedUserId : option positive).

(** What stands inside the [try] of a tool's handler. *)
Definition tool_try (call : ToolCall) : M ToolResult :=
  match call with
  | LarAsk message fileId => lar_ask_try message fileId
  | LarUploadDocument name url => lar_upload_document_try name url
  | LarDeleteDocument name => lar_delete_document_try name
  | LarListDocuments => lar_list_documents_try
  | LarListClients => lar_list_clients_try
  | LarCreateClient name contactInformation address notes =>
      lar_create_client_try name contactInformation address notes
  | LarDeleteClient clientId => lar_delete_client_try clientId
  | LarEditClient clientId name contactInformation address notes =>
      lar_edit_client_try clientId name contactInformation address notes
  | LarListCases => lar_list_cases_try
  | LarCreateCase title description status_ courtDate clientId =>
      lar_create_case_try title description status_ courtDate clientId
  | LarDeleteCase caseId => lar_delete_case_try caseId
  | LarEditCase caseId title description status_ courtDate clientId
      assignedUserId =>
      lar_edit_case_try caseId title description status_ courtDate clientId
        assignedUserId
  end.

(** The handler of a tool. *)
Definition handle (call : ToolCall) : M ToolResult :=
  match call with
  | LarAsk message fileId => lar_ask message fileId
  | LarUploadDocument name url => lar_upload_document name url
  | LarDeleteDocument name => lar_delete_document name
  | LarListDocuments => lar_list_documents
  | LarListClients => lar_list_clients
  | LarCreateClient name contactInformation address notes =>
      lar_create_client name contactInformation address notes
  | LarDeleteClient clientId => lar_delete_client clientId
  | LarEditClient clientId name contactInformation address notes =>
      lar_edit_client clientId name contactInformation address notes
  | LarListCases => lar_list_cases
  | LarCreateCase title description status_ courtDate clientId =>
      lar_create_case title description status_ courtDate clientId
  | LarDeleteCase caseId => lar_delete_case caseId
  | LarEditCase caseId title description status_ courtDate clientId
      assignedUserId =>
      lar_edit_case caseId title description status_ courtDate clientId
        assignedUserId
  end.

End Handlers.


(** * The vocabulary of the properties *)

(** A byte below 128. *)
Definition is_ascii (b : byte) : bool := (Byte.to_N b <=? 127)%N.

(** No byte order mark is looked for, and a continuation byte is
    expected only above 127. *)
Definition plain (st : Utf8.State) : Prop :=
  Utf8.bom_seen st = true
  /\ (Utf8.needed st <> O -> (128 <= Utf8.lower st)%N).

Definition well_formed (r : ToolResult) : Prop :=
  exists t, content r = [mkContent "text" t].

(** [Answers m]: whatever [m] returns is well formed. *)
Definition Answers (m : M ToolResult) : Prop :=
  forall w log r log', m w log = (Normal r, log') -> well_formed r.

(** The requests that send data to the backend: [fetch] with [POST] or
    [PUT]. *)
Definition is_send (c : NetCall) : bool :=
  match c with
  | ViaFetch request =>
      match method request with
      | POST | PUT => true
      | GET | DELETE => false
      end
  | ViaAxios _ => false
  end.

(** [Quiet m]: [m] only adds calls to the log, none of which sends. *)
Definition Quiet {A} (m : M A) : Prop :=
  forall w log c log',
    m w log = (c, log') ->
    exists d, log' = (log ++ d)%list /\ Forall (fun c => is_send c = false) d.

(** [Silent m]: [m] makes no network call. *)
Definition Silent {A} (m : M A) : Prop :=
  forall w log, snd (m w log) = log.

(** The words that open the message of each handler's [catch] clause. *)
Definition catch_words (call : ToolCall) : string :=
  match call with
  | LarListDocuments => "Error al obtener los documentos: "
  | LarListClients => "Error al obtener los clientes: "
  | LarListCases => "Error al obtener los casos: "
  | _ => "Error en el proceso: "
  end.

(** [Sends expected m]: when the last call of [m] is a sending [fetch]
    whose answer has a readable body [t] that [JSON.parse] rejects, [m]
    returns [expected response t]. *)
Definition Sends (rt : Runtime) {A} (expected : Response -> string -> A)
    (m : M A) : Prop :=
  forall w log c log',
    m w log = (c, log') ->
    exists d, log' = (log ++ d)%list /\
      forall pre request response t msg,
        d = (pre ++ [ViaFetch request])%list ->
        is_send (ViaFetch request) = true ->
        fetch_answer w (List.length (log ++ pre)) request = FetchResolved response ->
        text response = Normal t ->
        JSON_parse rt t = inl msg ->
        c = Normal (expected response t).

(** [Final expected response m]: [m] makes no call, and returns
    [expected response t] when the body of [response] is such a [t]. *)
Definition Final (rt : Runtime) {A} (expected : Response -> string -> A)
    (response : Response) (m : M A) : Prop :=
  Silent m /\
  forall w log t msg,
    text response = Normal t -> JSON_parse rt t = inl msg ->
    fst (m w log) = Normal (expected response t).

(** The tools that parse the answer to their [POST] or [PUT] with
    [JSON.parse] under a [try]. *)
Definition tolerant (call : ToolCall) : bool :=
  match call with
  | LarUploadDocument _ _ | LarCreateClient _ _ _ _ | LarEditClient _ _ _ _ _
  | LarCreateCase _ _ _ _ _ | LarEditCase _ _ _ _ _ _ _ => true
  | _ => false
  end.

Definition raw (t : string) : JSValue := JObj [("raw", JStr t)].

Definition failure_text (words : string) (response : Response) (t : string)
  : ToolResult :=
  text_result (words ++ Text.of_Z (status response) ++ " - " ++ t).

(** What a tolerant tool returns for an answer whose body [t] is not
    JSON: its failure message outside the 2xx range, its success message
    with [{ raw: t }] as structured field inside. *)
Definition raw_result (call : ToolCall) (response : Response) (t : string)
  : ToolResult :=
  match call with
  | LarUploadDocument _ _ =>
      if ok response
      then mkResult
             [mkContent "text" "Documento subido correctamente. ID: desconocido"]
             [("apiResponse", raw t)]
      else failure_text "Error al subir el documento: " response t
  | LarCreateClient _ _ _ _ =>
      if ok response
      then mkResult [mkContent "text" "Cliente creado correctamente.}"]
                    [("client", raw t)]
      else failure_text "Error al crear el cliente: " response t
  | LarEditClient clientId _ _ _ _ =>
      if ok response
      then mkResult
             [mkContent "text" ("Cliente con ID " ++ Text.of_pos clientId
                                ++ " actualizado correctamente.")]
             [("client", raw t)]
      else failure_text "Error al actualizar el cliente: " response t
  | LarCreateCase _ _ _ _ _ =>
      if ok response
      then mkResult [mkContent "text" "Caso creado correctamente."]
                    [("case", raw t)]
      else failure_text "Error al crear el caso: " response t
  | LarEditCase caseId _ _ _ _ _ _ =>
      if ok response
      then mkResult
             [mkContent "text" ("Caso con ID " ++ Text.of_pos caseId
                                ++ " actualizado correctamente.")]
             [("case", raw t)]
      else failure_text "Error al actualizar el caso: " response t
  | _ => text_result ""
  end.

(** The tools that parse the answer to their [GET] with
    [response.json()], and the path they get. *)
Definition strict_path (call : ToolCall) : option string :=
  match call with
  | LarListDocuments => Some "/api/files"
  | LarListClients => Some "/api/clients/user"
  | LarListCases => Some "/api/cases"
  | LarEditClient clientId _ _ _ _ => Some ("/api/clients/" ++ Text.of_pos clientId)
  | LarEditCase caseId _ _ _ _ _ _ => Some ("/api/cases/" ++ Text.of_pos caseId)
  | _ => None
  end.

Definition get_request (w : World) (path : string) (tokenJWT : JSValue)
  : Request :=
  mkRequest GET (api_url (env w) path) (json_get_headers tokenJWT) NoBody.

(** The deletion of a document and of a case, with the path each one
    deletes. *)
Definition delete_path (rt : Runtime) (call : ToolCall) : option string :=
  match call with
  | LarDeleteDocument name => Some ("/api/files/" ++ encodeURIComponent rt name)
  | LarDeleteCase caseId => Some ("/api/cases/" ++ Text.of_pos caseId)
  | _ => None
  end.

Definition delete_request (w : World) (path : string) (tokenJWT : JSValue)
  : Request :=
  mkRequest DELETE (api_url (env w) path) (json_get_headers tokenJWT) NoBody.

(** The text each of them answers a 404 with. *)
Definition text_on_404 (call : ToolCall) (errorText : string) : string :=
  match call with
  | LarDeleteDocument name =>
      "No se encontró ningún documento con el nombre "
      ++ Text.dquote ++ name ++ Text.dquote ++ "."
  | _ => "Error al eliminar el caso: 404 - " ++ errorText
  end.

Definition unset (w : World) : Prop :=
  API_URL (env w) = None \/ API_EMAIL (env w) = None
  \/ API_PASSWORD (env w) = None.

Definition download_request (url : string) : Request :=
  mkRequest GET url [] NoBody.

(** The decoder in the words of the specification: the text a frame
    contributes, the text of a decoded chunk, the decoded chunks of a body,
    and the text of the body. *)
Definition frame_payload (frame : string) : string :=
  if prefix "data: " frame then Text.drop 6 frame else "".

Definition chunk_payload (chunk : string) : string :=
  Text.concat_all (map frame_payload (events_of chunk)).

Fixpoint decoded_chunks (decoder : Utf8.State) (values : list (list byte))
  : list string :=
  match values with
  | [] => []
  | value :: rest =>
      let (decoder', chunk) := Utf8.decode_stream decoder value in
      chunk :: decoded_chunks decoder' rest
  end.

Definition sse_hello : list byte :=
  list_byte_of_string ("data: Hello" ++ frame_delimiter).

Definition sse_world : list byte :=
  list_byte_of_string ("data: World" ++ frame_delimiter).

Definition acme : JSValue :=
  JObj [("name", JStr "Acme"); ("contactInformation", JStr "x");
        ("address", JStr "Y")].

Definition put_request (w : World) (path : string) (tokenJWT : JSValue)
    (data : list (string * JSValue)) : Request :=
  mkRequest PUT (api_url (env w) path) (json_send_headers tokenJWT)
            (JsonBody (JObj data)).

(** ** The calls of a run *)

(** [OnlyAt w P m]: in the world [w], [m] only adds calls to the log, and
    every call it adds satisfies [P]. *)
Definition OnlyAt {A} (w : World) (P : NetCall -> Prop) (m : M A) : Prop :=
  forall log c log',
    m w log = (c, log') ->
    exists d, log' = (log ++ d)%list /\ Forall P d.

(** A request goes to the backend with a bearer token: its URL is the
    configured base followed by a path, and [Authorization: Bearer ...] is
    among its headers. *)
Definition carries_bearer (w : World) (request : Request) : Prop :=
  exists path token,
    url request = api_url (env w) path
    /\ In ("Authorization", bearer token) (headers request).

(** What a handler may call: [axios] (the two functions of [login.ts]),
    the backend with a bearer token, and, for [lar-upload-document], the
    URL of the document. *)
Definition allowed_call (w : World) (call : ToolCall) (c : NetCall) : Prop :=
  match c with
  | ViaAxios _ => True
  | ViaFetch request =>
      carries_bearer w request
      \/ exists name url, call = LarUploadDocument name url
                          /\ request = download_request url
  end.

(** The requests that change the backend: [fetch] with [POST], [PUT] or
    [DELETE]. *)
Definition mutates (c : NetCall) : bool :=
  match c with
  | ViaFetch request =>
      match method request with
      | POST | PUT | DELETE => true
      | GET => false
      end
  | ViaAxios _ => false
  end.

Definition reads (c : NetCall) : Prop := mutates c = false.

(** The calls [d] hold at most one request that changes the backend, and
    nothing follows it. *)
Definition writes_last (d : list NetCall) : Prop :=
  Forall reads d
  \/ exists pre request, d = (pre ++ [ViaFetch request])%list /\ Forall reads pre.

Definition WritesLast {A} (w : World) (m : M A) : Prop :=
  forall log c log',
    m w log = (c, log') ->
    exists d, log' = (log ++ d)%list /\ writes_last d.

(** [AtMost w n m]: in the world [w], [m] adds at most [n] calls. *)
Definition AtMost {A} (w : World) (n : nat) (m : M A) : Prop :=
  forall log c log',
    m w log = (c, log') ->
    exists d, log' = (log ++ d)%list /\ (List.length d <= n)%nat.

(** The most network calls a tool makes: the login, its request, and for
    some the download, the fetch of the entity, or [getUserId] (a login
    and the request of the identifier). *)
Definition max_calls (call : ToolCall) : nat :=
  match call with
  | LarUploadDocument _ _ => 3
  | LarCreateClient _ _ _ _ | LarCreateCase _ _ _ _ _ => 4
  | LarEditClient _ _ _ _ _ => 5
  | LarEditCase _ _ _ _ _ _ (Some _) => 3
  | LarEditCase _ _ _ _ _ _ None => 5
  | _ => 2
  end.

(** ** What a handler returns *)

(** A result with one text item whose text is not empty. *)
Definition has_text (r : ToolResult) : Prop :=
  exists t, content r = [mkContent "text" t] /\ t <> "".

(** [Returns P m]: whatever [m] returns satisfies [P]. *)
Definition Returns (P : ToolResult -> Prop) (m : M ToolResult) : Prop :=
  forall w log r log', m w log = (Normal r, log') -> P r.

(** ** [login.ts] *)

Definition not_configured (e : Env) : bool :=
  missing (API_URL e) || missing (API_EMAIL e) || missing (API_PASSWORD e).

(** The request of [loginAPI]. *)
Definition login_request (e : Env) : Request :=
  mkRequest POST (env_text (API_URL e) ++ "/api/auth/login") []
    (JsonBody (JObj [("email", JStr (env_text (API_EMAIL e)));
                     ("password", JStr (env_text (API_PASSWORD e)))])).

(** The second request of [getUserId]. *)
Definition user_id_request (e : Env) (token : JSValue) : Request :=
  mkRequest GET (env_text (API_URL e) ++ "/api/auth/user-id")
    [("Authorization", bearer token)] NoBody.

(** ** The tools one by one *)

(** The two tools that fetch an entity before they change it, the path
    they fetch and the words of their message when the fetch fails. *)
Definition edit_path (call : ToolCall) : option string :=
  match call with
  | LarEditClient clientId _ _ _ _ => Some ("/api/clients/" ++ Text.of_pos clientId)
  | LarEditCase caseId _ _ _ _ _ _ => Some ("/api/cases/" ++ Text.of_pos caseId)
  | _ => None
  end.

Definition edit_fetch_words (call : ToolCall) : string :=
  match call with
  | LarEditClient _ _ _ _ _ => "Error al obtener el cliente para editar: "
  | _ => "Error al obtener el caso para editar: "
  end.

Definition post_request (w : World) (path : string) (tokenJWT : JSValue)
    (data : list (string * JSValue)) : Request :=
  mkRequest POST (api_url (env w) path) (json_send_headers tokenJWT)
            (JsonBody (JObj data)).

Definition has_cases : string :=
  "No se puede eliminar el cliente porque tiene casos asociados. Por favor, elimine primero los casos o reasígnelos a otro cliente.".

(** [current ? current : undefined]: what the edit tools copy of an
    optional property of the fetched entity. *)
Definition kept (current : JSValue) : JSValue :=
  if JS.truthy current then current else JUndefined.

(** ** Frames of a stream *)

Definition LF_char : ascii := ascii_of_nat 10.

(** A text without line feed. *)
Fixpoint no_LF (s : string) : bool :=
  match s with
  | EmptyString => true
  | String c rest => negb (Ascii.eqb c LF_char) && no_LF rest
  end.

(** A text whose bytes are all below 128. *)
Definition ascii_text (s : string) : bool :=
  forallb is_ascii (list_byte_of_string s).

(** A payload of ASCII characters on one line. *)
Definition plain_payload (p : string) : bool := ascii_text p && no_LF p.

(** The frame of a payload as the backend writes it, and a chunk made of
    the frames of several payloads. *)
Definition frame (p : string) : string := "data: " ++ p ++ frame_delimiter.

Definition frames (ps : list string) : string :=
  Text.concat_all (map frame ps).

(** The characters of [x] pushed one by one on the reversed text [cur]:
    what [Text.split_go] does with a piece. *)
Fixpoint push (x cur : string) : string :=
  match x with
  | EmptyString => cur
  | String c rest => push rest (String c cur)
  end.

(** ** The frames of a chunk *)

(** What stands between two double newlines of a chunk: a frame that
    opens with [data: ], given by what follows these letters, or another
    text, the empty one included. *)
Inductive Piece :=
| Data (payload : string)
| Other (text : string).

Definition piece_text (f : Piece) : string :=
  match f with
  | Data payload => "data: " ++ payload
  | Other text => text
  end.

(** What a frame adds to the accumulated text. *)
Definition piece_payload (f : Piece) : string :=
  match f with
  | Data payload => payload
  | Other _ => ""
  end.

(** [Other] is for the texts that do not open with [data: ]. *)
Definition lawful (f : Piece) : bool :=
  match f with
  | Data _ => true
  | Other text => negb (prefix "data: " text)
  end.

Definition double_newline : string := String LF_char (String LF_char "").

(** A text without two line feeds in a row. *)
Fixpoint unbroken (s : string) : bool :=
  match s with
  | String a (String b _ as rest) =>
      negb (Ascii.eqb a LF_char && Ascii.eqb b LF_char) && unbroken rest
  | _ => true
  end.

(** The texts of a list with a double newline between them. *)
Fixpoint joined (texts : list string) : string :=
  match texts with
  | [] => ""
  | text :: rest =>
      match rest with
      | [] => text
      | _ :: _ => text ++ double_newline ++ joined rest
      end
  end.

(** The texts are what lies between the double newlines of [joined texts]
    met from left to right: there is at least one text, none holds a
    double newline, and none but the last ends with a line feed that would
    open a double newline one character earlier. *)
Fixpoint between_newlines (texts : list string) : bool :=
  match texts with
  | [] => false
  | text :: rest =>
      match rest with
      | [] => unbroken text
      | _ :: _ =>
          unbroken (text ++ String LF_char "") && between_newlines rest
      end
  end.

(** A chunk given by its frames. *)
Definition chunk_text (c : list Piece) : string := joined (map piece_text c).

Definition well_cut (c : list Piece) : bool :=
  between_newlines (map piece_text c) && forallb lawful c.

(** What the frames of a chunk add to the accumulated text. *)
Definition chunk_says (c : list Piece) : string :=
  Text.concat_all (map piece_payload c).

(** ** Uploading and listing *)

Definition upload_request (w : World) (tokenJWT : JSValue) (name : string)
    (bytes : list byte) : Request :=
  mkRequest POST (api_url (env w) "/api/files")
    [("Authorization", bearer tokenJWT)]
    (FormBody [("Name", FormText name);
               ("File", FormFile bytes "application/pdf" name);
               ("ScrapedAt", FormText (now_iso w))]).

(** [Id || id || "desconocido"] on the properties of the upload's answer. *)
Definition shown_id (fields : list (string * JSValue)) : JSValue :=
  if JS.truthy (JS.field "Id" fields) then JS.field "Id" fields
  else if JS.truthy (JS.field "id" fields) then JS.field "id" fields
  else JStr "desconocido".

(** The two listings that return whatever the backend lists, the path
    they get and the name of their structured field. *)
Definition plain_listing (call : ToolCall) : option (string * string) :=
  match call with
  | LarListDocuments => Some ("/api/files", "documents")
  | LarListClients => Some ("/api/clients/user", "clients")
  | _ => None
  end.

(** * Worked runs *)

Module Demo.

Definition q : string := Text.dquote.

(** [{"name":"Acme","contactInformation":"x","address":"Y"}] *)
Definition acme_text : string :=
  "{" ++ q ++ "name" ++ q ++ ":" ++ q ++ "Acme" ++ q ++ ","
  ++ q ++ "contactInformation" ++ q ++ ":" ++ q ++ "x" ++ q ++ ","
  ++ q ++ "address" ++ q ++ ":" ++ q ++ "Y" ++ q ++ "}".

(** [{"title":"Old title","description":"d","status":"Open","clientId":3}] *)
Definition case_text : string :=
  "{" ++ q ++ "title" ++ q ++ ":" ++ q ++ "Old title" ++ q ++ ","
  ++ q ++ "description" ++ q ++ ":" ++ q ++ "d" ++ q ++ ","
  ++ q ++ "status" ++ q ++ ":" ++ q ++ "Open" ++ q ++ ","
  ++ q ++ "clientId" ++ q ++ ":3}".

Definition old_case : JSValue :=
  JObj [("title", JStr "Old title"); ("description", JStr "d");
        ("status", JStr "Open"); ("clientId", JNum 3)].

(** [{"title":"Old title","courtDate":"2024-05-06T00:00:00Z"}] *)
Definition dated_case_text : string :=
  "{" ++ q ++ "title" ++ q ++ ":" ++ q ++ "Old title" ++ q ++ ","
  ++ q ++ "courtDate" ++ q ++ ":" ++ q ++ "2024-05-06T00:00:00Z" ++ q ++ "}".

Definition dated_case : JSValue :=
  JObj [("title", JStr "Old title"); ("courtDate", JStr "2024-05-06T00:00:00Z")].

(** [[{"id":1}]] *)
Definition cases_text : string := "[{" ++ q ++ "id" ++ q ++ ":1}]".

Definition one_case : JSValue := JArr [JObj [("id", JNum 1)]].

(** [JSON.parse] on the texts of the runs below: the five JSON texts
    above and [[]] are parsed, a text that opens with another character is
    refused the way Node 18 words it. *)
Definition parse (t : string) : string + JSValue :=
  if t =? acme_text then inr acme
  else if t =? case_text then inr old_case
  else if t =? dated_case_text then inr dated_case
  else if t =? cases_text then inr one_case
  else if t =? "[]" then inr (JArr [])
  else match t with
       | EmptyString => inl "Unexpected end of JSON input"
       | String c _ =>
           inl ("Unexpected token " ++ String c EmptyString
                ++ " in JSON at position 0")
       end.

(** [JSON.stringify(v, null, 2)] on the values of the runs below. *)
Definition stringify (v : JSValue) : string :=
  match v with
  | JArr [JObj [(k, JNum n)]] =>
      "[" ++ Text.LF ++ "  {" ++ Text.LF
      ++ "    " ++ q ++ k ++ q ++ ": " ++ Text.of_Z n ++ Text.LF
      ++ "  }" ++ Text.LF ++ "]"
  | JArr [] => "[]"
  | _ => "null"
  end.

Definition rt : Runtime := {|
  JSON_parse := parse;
  JSON_stringify := stringify;
  encodeURIComponent := fun s => s;   (* names of unreserved characters *)
  Date_toISOString := fun s =>
    if s =? "2025-03-01" then Some "2025-03-01T00:00:00.000Z" else None
|}.

Definition configured : Env :=
  mkEnv (Some "http://api.test") (Some "ana@example.org") (Some "secret").

Definition unconfigured : Env := mkEnv None None None.

(** A world that answers the [n]-th network call with the [n]-th entry of
    a script, and fails the calls the script does not foresee. *)
Definition scripted (e : Env) (answers : list (FetchOutcome + AxiosOutcome))
  : World :=
  mkWorld e
    (fun n _ =>
       match nth_error answers n with
       | Some (inl outcome) => outcome
       | _ => FetchRejected "fetch failed"
       end)
    (fun n _ =>
       match nth_error answers n with
       | Some (inr outcome) => outcome
       | _ => AxiosRejected "Network Error"
       end)
    "2025-01-01T00:00:00.000Z".

Definition responds (status : Z) (contentType : option string) (t : string)
  : FetchOutcome + AxiosOutcome :=
  inl (FetchResolved
         (mkResponse status contentType (Some [Chunk (list_byte_of_string t)]))).

Definition login_ok : FetchOutcome + AxiosOutcome :=
  inr (AxiosResolved (JObj [("token", JStr "jwt")])).

Definition user_ok : FetchOutcome + AxiosOutcome :=
  inr (AxiosResolved (JObj [("userId", JStr "u-1")])).

Definition json_type : option string := Some "application/json".

Definition token : JSValue := JStr "jwt".

Definition login_call : NetCall :=
  ViaAxios (mkRequest POST "http://api.test/api/auth/login" []
              (JsonBody (JObj [("email", JStr "ana@example.org");
                               ("password", JStr "secret")]))).

Definition user_calls : list NetCall :=
  [login_call;
   ViaAxios (mkRequest GET "http://api.test/api/auth/user-id"
               [("Authorization", "Bearer jwt")] NoBody)].

(** The worlds of the runs. *)
Definition w_delete_404 : World :=
  scripted configured [login_ok; responds 404 json_type "Not Found"].

(** A 404 whose body breaks off before it is read. *)
Definition unread_404 : Response :=
  mkResponse 404 json_type (Some [ReadFailed "terminated"]).

Definition w_delete_404_unread : World :=
  scripted configured [login_ok; inl (FetchResolved unread_404)].

Definition w_unconfigured_pdf : World :=
  scripted unconfigured
    [responds 200 (Some "application/pdf") "%PDF-1.7 ..."].

Definition w_unconfigured : World := scripted unconfigured [].

Definition w_html_listing : World :=
  scripted configured [login_ok; responds 200 (Some "text/html") "<html>"].

Definition w_create_client : World :=
  scripted configured
    [login_ok; login_ok; user_ok; responds 201 (Some "text/plain") "Created"].

Definition w_download (contentType : string) : World :=
  scripted configured [responds 200 (Some contentType) "<html>"].

Definition w_edit_client : World :=
  scripted configured
    [login_ok; responds 200 json_type acme_text; login_ok; user_ok;
     responds 200 json_type acme_text].

Definition w_edit_case : World :=
  scripted configured
    [login_ok; responds 200 json_type case_text; login_ok; user_ok;
     responds 200 json_type case_text].

Definition w_edit_dated : World :=
  scripted configured
    [login_ok; responds 200 json_type dated_case_text; login_ok; user_ok;
     responds 200 json_type dated_case_text].

Definition w_cases (t : string) : World :=
  scripted configured [login_ok; responds 200 json_type t].

Definition w_ask : World :=
  scripted configured
    [login_ok;
     inl (FetchResolved
            (mkResponse 200 (Some "text/event-stream")
               (Some [Chunk sse_hello; Chunk sse_world])))].

End Demo.

(** Further runs. *)
Module Runs.

(** [JSON.parse] of [Demo], and of the text [null]. *)
Definition rt : Runtime := {|
  JSON_parse := fun t => if t =? "null" then inr JNull else Demo.parse t;
  JSON_stringify := Demo.stringify;
  encodeURIComponent := fun s => s;
  Date_toISOString := fun s =>
    if s =? "2025-03-01" then Some "2025-03-01T00:00:00.000Z" else None
|}.

Definition w_client_has_cases : World :=
  Demo.scripted Demo.configured
    [Demo.login_ok;
     Demo.responds 400 Demo.json_type "Cannot delete client with associated cases"].

Definition w_user : World :=
  Demo.scripted Demo.configured [Demo.login_ok; Demo.user_ok].

Definition w_null_entity : World :=
  Demo.scripted Demo.configured
    [Demo.login_ok; Demo.responds 200 Demo.json_type "null"].

Definition pdf_bytes : list byte := list_byte_of_string "%PDF-1.7 ...".

(** A download of a PDF, a login and an upload answered with [null]. *)
Definition w_upload_null : World :=
  Demo.scripted Demo.configured
    [Demo.responds 200 (Some "application/pdf") "%PDF-1.7 ...";
     Demo.login_ok;
     Demo.responds 201 Demo.json_type "null"].

(** A stream that breaks after its first chunk. *)
Definition broken_stream : Response :=
  mkResponse 200 (Some "text/event-stream")
    (Some [Chunk sse_hello; ReadFailed "terminated"; Chunk sse_world]).

Definition w_ask_broken : World :=
  Demo.scripted Demo.configured
    [Demo.login_ok; inl (FetchResolved broken_stream)].

End Runs.

(** * Proofs *)

(** ** The platform functions on small inputs *)

Example split_on_double_newline :
  Text.split frame_delimiter
    ("a" ++ Text.LF ++ Text.LF ++ Text.LF ++ "b" ++ Text.LF ++ Text.LF)
  = ["a"; Text.LF ++ "b"; ""].
Proof. reflexivity. Qed.

Example status_in_a_template : Text.of_Z 404 = "404".
Proof. reflexivity. Qed.

Example array_in_a_template :
  JS.toString (JArr [JNum 1; JNull; JStr "a"; JArr [JBool true; JNum (-2)]])
  = "1,,a,true,-2".
Proof. reflexivity. Qed.

(** A character whose two bytes arrive in two chunks is decoded with the
    second chunk. *)
Example decode_across_chunks :
  let (decoder, first) := Utf8.decode_stream Utf8.init [x73; xc3] in
  (first, snd (Utf8.decode_stream decoder [xb3; x21])) = ("s", "ó!").
Proof. reflexivity. Qed.

(** An overlong encoding is replaced, a byte order mark at the start is
    dropped by [text()] and kept by [Buffer.toString()]. *)
Example decode_ill_formed :
  Utf8.decode_all Utf8.init [xc0; xaf; x41]
  = string_of_list_byte (Utf8.replacement ++ Utf8.replacement ++ [x41])
  /\ Utf8.decode_all Utf8.init (Utf8.bom ++ [x41]) = "A"
  /\ Buffer_toString (Utf8.bom ++ [x41])
     = string_of_list_byte (Utf8.bom ++ [x41]).
Proof. repeat split. Qed.

Example content_types :
  has_pdf_type (Some "Application/PDF; charset=binary") = true
  /\ has_pdf_type (Some "text/html") = false
  /\ has_pdf_type (Some "") = false
  /\ has_pdf_type None = false.
Proof. repeat split. Qed.


(** ** Decoding ASCII *)

Module Utf8Facts.
Import Utf8.

Lemma emit_plain st cp :
  bom_seen st = true -> emit st cp = (mkState [] 0 128 191 true, cp).
Proof. intros H. unfold emit. now rewrite H. Qed.

Lemma replacement_not_ascii rest :
  forallb is_ascii (replacement ++ rest) = false.
Proof. reflexivity. Qed.

Lemma plain_idle : plain (mkState [] 0 128 191 true).
Proof. split; [ reflexivity | now intros H ]. Qed.

(** What one byte does to a plain decoder: an ASCII byte read between
    sequences is emitted as it is; anything else either leaves a sequence
    open or emits a byte above 127. *)
Lemma step_plain st b st1 o1 :
  plain st -> step st b = (st1, o1) ->
  plain st1 /\
  (forallb is_ascii o1 = true -> needed st1 = O -> needed st = O /\ o1 = [b]).
Proof.
  intros [Hbom Hlow] E. unfold step in E.
  destruct (needed st) as [ | k ] eqn:En.
  - unfold start in E.
    destruct (Byte.to_N b <=? 127)%N eqn:E127.
    + rewrite emit_plain in E by assumption. inversion E; subst.
      split; [ apply plain_idle | auto ].
    + destruct (in_range 194 223 (Byte.to_N b)).
      { inversion E; subst. split; [ split; [ assumption | intros _; cbn; lia ] | ].
        cbn. discriminate. }
      destruct (in_range 224 239 (Byte.to_N b)).
      { inversion E; subst. split.
        - split; [ assumption | intros _; cbn ].
          destruct (Byte.to_N b =? 224)%N; lia.
        - cbn. discriminate. }
      destruct (in_range 240 244 (Byte.to_N b)).
      { inversion E; subst. split.
        - split; [ assumption | intros _; cbn ].
          destruct (Byte.to_N b =? 240)%N; lia.
        - cbn. discriminate. }
      rewrite emit_plain in E by assumption. inversion E; subst.
      split; [ apply plain_idle | discriminate ].
  - destruct (in_range (lower st) (upper st) (Byte.to_N b)) eqn:Er.
    + destruct k.
      * rewrite emit_plain in E by assumption. inversion E; subst.
        split; [ apply plain_idle | ].
        intros Ha _. exfalso.
        rewrite forallb_app in Ha. apply andb_true_iff in Ha as [_ Ha].
        cbn in Ha. rewrite andb_true_r in Ha. unfold is_ascii in Ha.
        unfold in_range in Er. apply andb_true_iff in Er as [Er _].
        apply N.leb_le in Er, Ha.
        assert (128 <= lower st)%N by (apply Hlow; congruence). lia.
      * inversion E; subst. split.
        { split; [ assumption | intros _; cbn; lia ]. }
        cbn. discriminate.
    + rewrite emit_plain in E by assumption.
      destruct (start (mkState [] 0 128 191 true) b) as [st2 o2] eqn:Es.
      inversion E; subst. split.
      * unfold start in Es.
        destruct (Byte.to_N b <=? 127)%N.
        { rewrite emit_plain in Es by reflexivity. inversion Es. apply plain_idle. }
        destruct (in_range 194 223 (Byte.to_N b)).
        { inversion Es. split; [ reflexivity | intros _; cbn; lia ]. }
        destruct (in_range 224 239 (Byte.to_N b)).
        { inversion Es. split; [ reflexivity | intros _; cbn ].
          destruct (Byte.to_N b =? 224)%N; lia. }
        destruct (in_range 240 244 (Byte.to_N b)).
        { inversion Es. split; [ reflexivity | intros _; cbn ].
          destruct (Byte.to_N b =? 240)%N; lia. }
        rewrite emit_plain in Es by reflexivity. inversion Es. apply plain_idle.
      * intros Ha. change (forallb is_ascii (replacement ++ o2) = true) in Ha.
        now rewrite replacement_not_ascii in Ha.
Qed.

(** A plain decoder whose whole output is ASCII was fed that output. *)
Lemma run_ascii bs : forall st st' out,
  plain st -> run st bs = (st', out) ->
  forallb is_ascii (out ++ flush st') = true ->
  needed st = O /\ out = bs /\ flush st' = [].
Proof.
  induction bs as [ | b rest IH ]; intros st st' out Hp E Ha.
  - cbn in E. inversion E; subst. cbn in Ha. unfold flush in *.
    destruct (needed st'); [ auto | ].
    rewrite emit_plain in Ha by apply Hp. discriminate.
  - cbn in E.
    destruct (step st b) as [st1 o1] eqn:E1.
    destruct (run st1 rest) as [st2 o2] eqn:E2.
    inversion E; subst.
    destruct (step_plain _ _ _ _ Hp E1) as [Hp1 H1].
    rewrite <- app_assoc, forallb_app in Ha. apply andb_true_iff in Ha as [Ha1 Ha2].
    destruct (IH _ _ _ Hp1 E2 Ha2) as (Hn1 & -> & Hf).
    destruct (H1 Ha1 Hn1) as [Hn ->].
    auto.
Qed.

Lemma decode_all_ascii bs s :
  forallb is_ascii (list_byte_of_string s) = true ->
  decode_all init_keep_bom bs = s ->
  bs = list_byte_of_string s.
Proof.
  intros Ha E. unfold decode_all in E.
  destruct (run init_keep_bom bs) as [st' out] eqn:Er.
  apply (f_equal list_byte_of_string) in E.
  rewrite list_byte_of_string_of_list_byte in E.
  rewrite <- E in Ha.
  destruct (run_ascii bs _ _ _ plain_idle Er Ha) as (_ & -> & Hf).
  rewrite Hf, app_nil_r in E. exact E.
Qed.

End Utf8Facts.

(** ** Running the monad *)

Lemma bind_Normal {A B} (m : M A) (k : A -> M B) w log a log1 :
  m w log = (Normal a, log1) -> bind m k w log = k a w log1.
Proof. intros H. unfold bind. now rewrite H. Qed.

Lemma bind_Throw {A B} (m : M A) (k : A -> M B) w log e log1 :
  m w log = (Throw e, log1) -> bind m k w log = (Throw e, log1).
Proof. intros H. unfold bind. now rewrite H. Qed.

Lemma try_catch_Normal {A} (m : M A) handler w log a log1 :
  m w log = (Normal a, log1) -> try_catch m handler w log = (Normal a, log1).
Proof. intros H. unfold try_catch. now rewrite H. Qed.

Lemma try_catch_Throw {A} (m : M A) handler w log e log1 :
  m w log = (Throw e, log1) -> try_catch m handler w log = handler e w log1.
Proof. intros H. unfold try_catch. now rewrite H. Qed.

(** Runs a computation as far as the hypotheses tell the outcome of its
    steps: the monad is unfolded, and each step whose outcome is a
    hypothesis is replaced by it. *)
Ltac crunch :=
  cbv beta iota zeta
      delta [bind ret lift throw try_catch endpoint getenv now fetch axios
             report or_else defined_or json parse_or_raw negb fst snd].

Ltac crunch_in H :=
  cbv beta iota zeta
      delta [bind ret lift throw try_catch endpoint getenv now fetch axios
             report or_else defined_or json parse_or_raw negb fst snd] in H.

(** Case analysis on the steps of a run [H] that completed normally. *)
Ltac unwind H :=
  repeat (cbv beta iota in H;
          match type of H with
          | context [get_prop ?v ?k] =>
              destruct (get_prop v k) as [ ? | ? ]; [ | discriminate ]
          | context [getUserId ?w ?l] =>
              destruct (getUserId w l) as [ [ ? | ? ] ? ]; [ | discriminate ]
          | context [JS.truthy ?v] => destruct (JS.truthy v)
          | context [match ?o with Some _ => _ | None => _ end] => destruct o
          end);
  cbv beta iota in H.

Ltac run :=
  repeat (crunch;
          match goal with
          | H : ?x = _ |- context [?x] => rewrite H
          end);
  crunch.

(** A handler whose [catch] clause is [report] completes normally. *)
Lemma try_catch_report_returns (m : M ToolResult) words w log :
  exists result log', try_catch m (report words) w log = (Normal result, log').
Proof.
  unfold try_catch. destruct (m w log) as [[r | e] log1].
  - now exists r, log1.
  - unfold report, ret. eauto.
Qed.

(** ** Every result carries one text item *)

Lemma Answers_ret r : well_formed r -> Answers (ret r).
Proof. intros H w log r' log' E. unfold ret in E. now inversion E; subst. Qed.

Lemma Answers_bind {A} (m : M A) (k : A -> M ToolResult) :
  (forall a, Answers (k a)) -> Answers (bind m k).
Proof.
  intros H w log r log' E. unfold bind in E.
  destruct (m w log) as [[a | e] log1]; [ | discriminate ].
  exact (H a w log1 r log' E).
Qed.

Lemma Answers_try (m : M ToolResult) words :
  Answers m -> Answers (try_catch m (report words)).
Proof.
  intros H w log r log' E. unfold try_catch in E.
  destruct (m w log) as [[a | e] log1] eqn:Em.
  - inversion E; subst. exact (H w log r log' Em).
  - unfold report, ret in E. inversion E; subst. now eexists.
Qed.

Ltac answers :=
  cbv zeta;
  repeat first
    [ apply Answers_bind; intro
    | apply Answers_ret; eexists; reflexivity
    | match goal with
      | |- Answers (if ?b then _ else _) => destruct b
      | |- Answers (match ?x with _ => _ end) => destruct x
      end ].

(** ** Which network calls a computation makes *)

Lemma Quiet_pure {A} (c : Completion A) : Quiet (fun _ log => (c, log)).
Proof.
  intros w log c' log' E. inversion E; subst.
  exists []. split; [ now rewrite app_nil_r | constructor ].
Qed.

Lemma Quiet_ret {A} (a : A) : Quiet (ret a).
Proof. apply Quiet_pure. Qed.

Lemma Quiet_throw {A} e : Quiet (@throw A e).
Proof. apply Quiet_pure. Qed.

Lemma Quiet_lift {A} (c : Completion A) : Quiet (lift c).
Proof. apply Quiet_pure. Qed.

Lemma Quiet_getenv : Quiet getenv.
Proof.
  intros w log c log' E. inversion E; subst.
  exists []. split; [ now rewrite app_nil_r | constructor ].
Qed.

Lemma Quiet_now : Quiet now.
Proof.
  intros w log c log' E. inversion E; subst.
  exists []. split; [ now rewrite app_nil_r | constructor ].
Qed.

Lemma Quiet_bind {A B} (m : M A) (k : A -> M B) :
  Quiet m -> (forall a, Quiet (k a)) -> Quiet (bind m k).
Proof.
  intros Hm Hk w log c log' E. unfold bind in E.
  destruct (m w log) as [[a | e] log1] eqn:Em.
  - destruct (Hm _ _ _ _ Em) as (d1 & -> & F1).
    destruct (Hk a _ _ _ _ E) as (d2 & -> & F2).
    exists (d1 ++ d2)%list. split; [ now rewrite app_assoc | now apply Forall_app ].
  - inversion E; subst. exact (Hm _ _ _ _ Em).
Qed.

Lemma Quiet_axios request : Quiet (axios request).
Proof.
  intros w log c log' E. unfold axios in E. inversion E; subst.
  exists [ViaAxios request]. split; [ reflexivity | now repeat constructor ].
Qed.

Lemma Quiet_fetch request :
  is_send (ViaFetch request) = false -> Quiet (fetch request).
Proof.
  intros H w log c log' E. unfold fetch in E. inversion E; subst.
  exists [ViaFetch request]. split; [ reflexivity | now repeat constructor ].
Qed.

(** Steps through a computation; [quiet_known] holds the lemmas for the
    functions already dealt with. *)
Ltac quiet_known := fail.

Ltac quiet :=
  repeat first
    [ quiet_known
    | apply Quiet_ret | apply Quiet_throw | apply Quiet_lift
    | apply Quiet_getenv | apply Quiet_now | apply Quiet_axios
    | apply Quiet_fetch; reflexivity
    | apply Quiet_bind; [ | intro ]
    | progress cbv zeta
    | match goal with
      | |- Quiet (if ?b then _ else _) => destruct b
      | |- Quiet (match ?x with _ => _ end) => destruct x
      end ].

Lemma Quiet_loginAPI : Quiet loginAPI.
Proof. unfold loginAPI. quiet. Qed.

Ltac quiet_known ::= apply Quiet_loginAPI.

Lemma Quiet_getUserId : Quiet getUserId.
Proof. unfold getUserId. quiet. Qed.

Lemma Quiet_endpoint path : Quiet (endpoint path).
Proof. unfold endpoint. quiet. Qed.

Lemma Quiet_or_else a b : Quiet b -> Quiet (or_else a b).
Proof. intros H. unfold or_else. now quiet. Qed.

Lemma Quiet_defined_or a b : Quiet b -> Quiet (defined_or a b).
Proof. intros H. unfold defined_or. now quiet. Qed.

Ltac quiet_known ::=
  first [ apply Quiet_loginAPI | apply Quiet_getUserId | apply Quiet_endpoint
        | apply Quiet_or_else | apply Quiet_defined_or ].

Lemma Quiet_updatedClientData idUser currentClient name contactInformation
    address notes :
  Quiet (updatedClientData idUser currentClient name contactInformation
           address notes).
Proof. unfold updatedClientData. quiet. Qed.

Lemma Quiet_updatedCaseData currentCase title description status_ clientId
    assignedUserId :
  Quiet (updatedCaseData currentCase title description status_ clientId
           assignedUserId).
Proof. unfold updatedCaseData. quiet. Qed.

Ltac quiet_known ::=
  first [ apply Quiet_loginAPI | apply Quiet_getUserId | apply Quiet_endpoint
        | apply Quiet_or_else | apply Quiet_defined_or
        | apply Quiet_updatedClientData | apply Quiet_updatedCaseData ].

Lemma Silent_ret {A} (a : A) : Silent (ret a).
Proof. now intros w log. Qed.

Lemma Silent_lift {A} (c : Completion A) : Silent (lift c).
Proof. now intros w log. Qed.

Lemma Silent_bind {A B} (m : M A) (k : A -> M B) :
  Silent m -> (forall a, Silent (k a)) -> Silent (bind m k).
Proof.
  intros Hm Hk w log. unfold bind. specialize (Hm w log).
  destruct (m w log) as [[a | e] log1]; simpl in Hm; subst.
  - apply Hk.
  - reflexivity.
Qed.

Ltac silent :=
  repeat first
    [ apply Silent_ret | apply Silent_lift
    | apply Silent_bind; [ | intro ]
    | progress (cbv zeta; unfold or_else)
    | match goal with
      | |- Silent (if ?b then _ else _) => destruct b
      | |- Silent (match ?x with _ => _ end) => destruct x
      end ].

Section HandlerFacts.

Variable rt : Runtime.

Lemma tool_try_answers call : Answers (tool_try rt call).
Proof.
  destruct call; cbn [tool_try].
  - unfold lar_ask_try. answers.
  - unfold lar_upload_document_try. answers.
  - unfold lar_delete_document_try. answers.
  - unfold lar_list_documents_try. answers.
  - unfold lar_list_clients_try. answers.
  - unfold lar_create_client_try. answers.
  - unfold lar_delete_client_try. answers.
  - unfold lar_edit_client_try. answers.
  - unfold lar_list_cases_try. answers.
  - unfold lar_create_case_try. answers.
  - unfold lar_delete_case_try. answers.
  - unfold lar_edit_case_try. answers.
Qed.

Lemma handle_try_catch call :
  handle rt call = try_catch (tool_try rt call) (report (catch_words call)).
Proof. destruct call; reflexivity. Qed.

(** *** The answer to the request that sends *)

Lemma Sends_quiet {A} expected (m : M A) : Quiet m -> Sends rt expected m.
Proof.
  intros Hq w log c log' E.
  destruct (Hq _ _ _ _ E) as (d & -> & F).
  exists d. split; [ reflexivity | ].
  intros pre request response t msg -> Hsend _ _ _.
  apply Forall_app in F as [_ F]. inversion F; subst. congruence.
Qed.

Lemma Sends_bind {A B} expected (m : M A) (k : A -> M B) :
  Quiet m -> (forall a, Sends rt expected (k a)) -> Sends rt expected (bind m k).
Proof.
  intros Hm Hk w log c log' E. unfold bind in E.
  destruct (m w log) as [[a | e] log1] eqn:Em.
  - destruct (Hm _ _ _ _ Em) as (d1 & -> & F1).
    destruct (Hk a _ _ _ _ E) as (d2 & -> & H2).
    exists (d1 ++ d2)%list. split; [ now rewrite app_assoc | ].
    intros pre request response t msg Hd Hsend Hanswer Ht Hparse.
    destruct (exists_last (l := d2)) as (pre2 & last & ->).
    { intros ->. rewrite app_nil_r in Hd. subst d1.
      apply Forall_app in F1 as [_ F1]. inversion F1; subst. congruence. }
    rewrite app_assoc in Hd. apply app_inj_tail in Hd as [<- ->].
    apply (H2 pre2 request response t msg); auto.
    now rewrite <- app_assoc.
  - inversion E; subst.
    destruct (Hm _ _ _ _ Em) as (d & -> & F).
    exists d. split; [ reflexivity | ].
    intros pre request response t msg -> Hsend _ _ _.
    apply Forall_app in F as [_ F]. inversion F; subst. congruence.
Qed.

Lemma Sends_fetch {A} expected request (rest : Response -> M A) :
  (forall response, Final rt expected response (rest response)) ->
  Sends rt expected (bind (fetch request) rest).
Proof.
  intros Hrest w log c log' E. unfold bind, fetch in E.
  destruct (fetch_answer w (List.length log) request) as [m | response0] eqn:Ea.
  - inversion E; subst. exists [ViaFetch request]. split; [ reflexivity | ].
    intros pre request' response t msg Hd _ Hanswer _ _.
    apply (app_inj_tail [] pre) in Hd as [<- Hr]. inversion Hr; subst.
    rewrite app_nil_r in Hanswer. congruence.
  - destruct (Hrest response0) as (Hs & Hc).
    specialize (Hs w (log ++ [ViaFetch request])%list).
    specialize (Hc w (log ++ [ViaFetch request])%list).
    rewrite E in Hs, Hc. simpl in Hs, Hc. subst log'.
    exists [ViaFetch request]. split; [ reflexivity | ].
    intros pre request' response t msg Hd _ Hanswer Ht Hparse.
    apply (app_inj_tail [] pre) in Hd as [<- Hr]. inversion Hr; subst.
    rewrite app_nil_r in Hanswer. rewrite Ea in Hanswer.
    inversion Hanswer; subst. eauto.
Qed.

Lemma Sends_try expected (m : M ToolResult) words :
  Sends rt expected m -> Sends rt expected (try_catch m (report words)).
Proof.
  intros Hm w log c log' E. unfold try_catch in E.
  destruct (m w log) as [[a | e] log1] eqn:Em;
    destruct (Hm _ _ _ _ Em) as (d & -> & H).
  - inversion E; subst. eauto.
  - unfold report, ret in E. inversion E; subst.
    exists d. split; [ reflexivity | ].
    intros pre request response t msg Hd Hsend Hanswer Ht Hparse.
    discriminate (H pre request response t msg Hd Hsend Hanswer Ht Hparse).
Qed.

Ltac final :=
  split;
  [ solve [ silent ]
  | let Ht := fresh in
    let Hp := fresh in
    intros ?w ?log ?t ?msg Ht Hp;
    unfold bind, lift, ret, raw_result, parse_or_raw, or_else, failure_text, raw;
    rewrite Ht, ?Hp;
    cbn [get_prop JS.field JS.truthy String.eqb Ascii.eqb Bool.eqb
         Text.is_empty negb];
    match goal with
    | |- context [ok ?r] => destruct (ok r); reflexivity
    end ].

Ltac sends :=
  repeat first
    [ apply Sends_fetch; [ intro; final ]
    | apply Sends_bind; [ solve [ quiet ] | intro ]
    | progress cbv zeta
    | match goal with
      | |- Sends _ _ (if ?b then _ else _) => destruct b
      | |- Sends _ _ (match ?x with _ => _ end) => destruct x
      end
    | apply Sends_quiet; solve [ quiet ] ].

Lemma tool_try_sends call :
  tolerant call = true -> Sends rt (raw_result call) (tool_try rt call).
Proof.
  destruct call; try discriminate; intros _; cbn [tool_try raw_result].
  - unfold lar_upload_document_try. sends.
  - unfold lar_create_client_try. sends.
  - unfold lar_edit_client_try. sends.
  - unfold lar_create_case_try. sends.
  - unfold lar_edit_case_try. sends.
Qed.

Lemma strict_parse_error call path w log tokenJWT log1 response t msg :
  strict_path call = Some path ->
  loginAPI w log = (Normal tokenJWT, log1) ->
  fetch_answer w (List.length log1) (get_request w path tokenJWT)
    = FetchResolved response ->
  ok response = true ->
  text response = Normal t ->
  JSON_parse rt t = inl msg ->
  handle rt call w log
  = (Normal (text_result (catch_words call ++ msg)),
     (log1 ++ [ViaFetch (get_request w path tokenJWT)])%list).
Proof.
  intros Hpath Hlogin Hanswer Hok Ht Hparse.
  destruct call; try discriminate; cbn [strict_path] in Hpath;
    unfold get_request in *;
    pose proof (f_equal (fun o => match o with Some p => p | None => path end) Hpath) as Hp;
    cbv beta iota in Hp; subst path; cbn [handle catch_words];
    unfold lar_list_documents, lar_list_documents_try,
      lar_list_clients, lar_list_clients_try,
      lar_list_cases, lar_list_cases_try,
      lar_edit_client, lar_edit_client_try,
      lar_edit_case, lar_edit_case_try;
    run; reflexivity.
Qed.

(** *** Deleting *)

(** C2, as the handlers have it. When the [DELETE] request of [lar-delete-document] is
    answered with status 404 and the body of that answer can be read, the
    result is the message that names the document; [lar-delete-case] has
    no branch for that status and answers a 404 with its general message,
    [Error al eliminar el caso: 404 - ] followed by the body.  Both read
    the body before anything else: when that read fails, the result of
    either tool is [Error en el proceso: ] followed by the failure's
    message, whatever the status. *)
Theorem C2_delete_answered_404 call path w log tokenJWT log1 response :
  delete_path rt call = Some path ->
  loginAPI w log = (Normal tokenJWT, log1) ->
  fetch_answer w (List.length log1) (delete_request w path tokenJWT)
    = FetchResolved response ->
  status response = 404%Z ->
  (forall errorText,
      text response = Normal errorText ->
      handle rt call w log
      = (Normal (text_result (text_on_404 call errorText)),
         (log1 ++ [ViaFetch (delete_request w path tokenJWT)])%list))
  /\ (forall e,
         text response = Throw e ->
         handle rt call w log
         = (Normal (text_result ("Error en el proceso: " ++ error_message e)),
            (log1 ++ [ViaFetch (delete_request w path tokenJWT)])%list)).
Proof.
  intros Hpath Hlogin Hanswer Hstatus.
  assert (Hok : ok response = false) by (unfold ok; now rewrite Hstatus).
  split; [ intros errorText Ht | intros e Ht ];
    (destruct call; try discriminate; cbn [delete_path] in Hpath;
     unfold delete_request in *;
     pose proof (f_equal (fun o => match o with Some p => p | None => path end)
                   Hpath) as Hp;
     cbv beta iota in Hp; subst path; cbn [handle text_on_404];
     unfold lar_delete_document, lar_delete_document_try,
       lar_delete_case, lar_delete_case_try;
     run; reflexivity).
Qed.

(** *** Missing configuration *)

Lemma loginAPI_unconfigured w log :
  missing (API_URL (env w)) || missing (API_EMAIL (env w))
    || missing (API_PASSWORD (env w)) = true ->
  loginAPI w log = (Throw (mkError config_error), log).
Proof. intros H. unfold loginAPI. crunch. now rewrite H. Qed.

Lemma unset_missing w :
  unset w ->
  missing (API_URL (env w)) || missing (API_EMAIL (env w))
    || missing (API_PASSWORD (env w)) = true.
Proof.
  intros [H | [H | H]]; rewrite H; cbn [missing];
    rewrite ?orb_true_r; reflexivity.
Qed.

(** C3, as the handlers have it. With one of [API_URL], [API_EMAIL], [API_PASSWORD] unset,
    every tool but [lar-upload-document] returns the configuration error,
    worded by its [catch] clause, without any network call.
    [lar-upload-document] downloads the document first: the download is
    its one network call, and the configuration error is its result when
    the download passes the two PDF checks. *)
Theorem C3_unconfigured call w log :
  unset w ->
  match call with
  | LarUploadDocument name url =>
      snd (handle rt call w log) = (log ++ [ViaFetch (download_request url)])%list
      /\ forall response bytes,
           fetch_answer w (List.length log) (download_request url)
             = FetchResolved response ->
           has_pdf_type (content_type response) = true ->
           arrayBuffer response = Normal bytes ->
           Buffer_toString (firstn 5 bytes) = pdf_magic ->
           fst (handle rt call w log)
           = Normal (text_result ("Error en el proceso: " ++ config_error))
  | _ =>
      handle rt call w log
      = (Normal (text_result (catch_words call ++ config_error)), log)
  end.
Proof.
  intros Hunset. apply unset_missing in Hunset.
  pose proof (loginAPI_unconfigured w) as Hlogin.
  specialize (fun log => Hlogin log Hunset).
  destruct call; cbn [handle catch_words];
    try (unfold lar_ask, lar_ask_try, lar_delete_document, lar_delete_document_try,
           lar_list_documents, lar_list_documents_try,
           lar_list_clients, lar_list_clients_try,
           lar_create_client, lar_create_client_try,
           lar_delete_client, lar_delete_client_try,
           lar_edit_client, lar_edit_client_try,
           lar_list_cases, lar_list_cases_try,
           lar_create_case, lar_create_case_try,
           lar_delete_case, lar_delete_case_try,
           lar_edit_case, lar_edit_case_try;
         crunch; rewrite Hlogin; reflexivity).
  unfold lar_upload_document, lar_upload_document_try, download_request.
  split.
  - crunch.
    destruct (fetch_answer w (List.length log) (mkRequest GET url0 [] NoBody))
      as [ msg | response ]; [ reflexivity | ].
    destruct (has_pdf_type (content_type response)); [ | reflexivity ].
    destruct (arrayBuffer response) as [ bytes | e ]; [ | reflexivity ].
    destruct (Buffer_toString (firstn 5 bytes) =? pdf_magic); [ | reflexivity ].
    crunch. now rewrite Hlogin.
  - intros response bytes Hanswer Htype Hbytes Hmagic.
    apply String.eqb_eq in Hmagic.
    crunch. rewrite Hanswer, Htype. crunch. rewrite Hbytes, Hmagic.
    crunch. now rewrite Hlogin.
Qed.

(** *** The PDF checks *)

Lemma Buffer_toString_magic bs :
  Buffer_toString bs = pdf_magic -> bs = list_byte_of_string pdf_magic.
Proof. apply Utf8Facts.decode_all_ascii. reflexivity. Qed.

(** C7, as the handlers have it. When the body at the URL does not begin with the five
    bytes [%PDF-], [lar-upload-document] makes no request beyond the
    download and rejects the document: with the message that it is not a
    valid PDF when the content type names PDF, and otherwise (the body is
    then not read) with the message that it has no PDF type. *)
Theorem C7_not_a_pdf name url w log response bytes :
  fetch_answer w (List.length log) (download_request url)
    = FetchResolved response ->
  arrayBuffer response = Normal bytes ->
  firstn 5 bytes <> list_byte_of_string pdf_magic ->
  handle rt (LarUploadDocument name url) w log
  = (Normal (text_result (if has_pdf_type (content_type response)
                          then not_valid_pdf else not_pdf_type)),
     (log ++ [ViaFetch (download_request url)])%list).
Proof.
  intros Hanswer Hbytes Hmagic.
  cbn [handle].
  unfold lar_upload_document, lar_upload_document_try, download_request in *.
  crunch. rewrite Hanswer.
  destruct (has_pdf_type (content_type response)); crunch; [ | reflexivity ].
  rewrite Hbytes.
  destruct (Buffer_toString (firstn 5 bytes) =? pdf_magic) eqn:E; [ | reflexivity ].
  apply String.eqb_eq, Buffer_toString_magic in E. contradiction.
Qed.

(** *** The stream of [lar-ask] *)

Lemma append_assoc (a b c : string) : (a ++ b) ++ c = a ++ (b ++ c).
Proof. induction a as [ | x a IH ]; cbn; [ reflexivity | now rewrite IH ]. Qed.

Lemma append_empty_r (a : string) : a ++ "" = a.
Proof. induction a as [ | x a IH ]; cbn; [ reflexivity | now rewrite IH ]. Qed.

Lemma concat_all_cons a l : Text.concat_all (a :: l) = a ++ Text.concat_all l.
Proof.
  unfold Text.concat_all. destruct l as [ | b l ]; cbn.
  - now rewrite append_empty_r.
  - reflexivity.
Qed.

Lemma fold_add_event events : forall fullText,
  fold_left add_event events fullText
  = fullText ++ Text.concat_all (map frame_payload events).
Proof.
  induction events as [ | event events IH ]; intros fullText.
  - cbn. now rewrite append_empty_r.
  - cbn [fold_left map]. rewrite IH, concat_all_cons.
    unfold add_event, frame_payload.
    destruct (prefix "data: " event).
    + now rewrite append_assoc.
    + reflexivity.
Qed.

Lemma read_loop_chunks values : forall decoder fullText,
  read_loop (map Chunk values) decoder fullText
  = Normal (fullText
            ++ Text.concat_all (map chunk_payload (decoded_chunks decoder values))).
Proof.
  induction values as [ | value values IH ]; intros decoder fullText.
  - cbn. now rewrite append_empty_r.
  - cbn [map read_loop decoded_chunks].
    destruct (Utf8.decode_stream decoder value) as [decoder' chunk].
    rewrite IH, fold_add_event. cbn [map].
    rewrite concat_all_cons, append_assoc. reflexivity.
Qed.

(** *** Editing a client *)

(** C9. [lar-edit-client] called with the client's id alone, for a client
    fetched as [{name: Acme, contactInformation: x, address: Y}], sends a
    [PUT] whose [name], [contactInformation] and [address] are those of the
    fetched client. *)
Theorem C9_edit_client_without_fields clientId w log tokenJWT log1 getResponse t
    idUser log2 :
  let path := "/api/clients/" ++ Text.of_pos clientId in
  loginAPI w log = (Normal tokenJWT, log1) ->
  fetch_answer w (List.length log1) (get_request w path tokenJWT)
    = FetchResolved getResponse ->
  ok getResponse = true ->
  text getResponse = Normal t ->
  JSON_parse rt t = inr acme ->
  getUserId w (log1 ++ [ViaFetch (get_request w path tokenJWT)])%list
    = (Normal idUser, log2) ->
  exists data,
    snd (handle rt (LarEditClient clientId None None None None) w log)
    = (log2 ++ [ViaFetch (put_request w path tokenJWT data)])%list
    /\ data = [("idUser", idUser); ("name", JStr "Acme");
               ("contactInformation", JStr "x"); ("address", JStr "Y")]
    /\ get_prop (JObj data) "name" = get_prop acme "name"
    /\ get_prop (JObj data) "contactInformation"
       = get_prop acme "contactInformation"
    /\ get_prop (JObj data) "address" = get_prop acme "address".
Proof.
  intros path Hlogin Hanswer Hok Ht Hparse Huser.
  eexists. split; [ | split; [ reflexivity | repeat split ] ].
  subst path. cbn [handle].
  unfold lar_edit_client, lar_edit_client_try, get_request, put_request in *.
  run. unfold updatedClientData, acme. crunch. cbn [get_prop JS.field].
  crunch.
  destruct (fetch_answer w (List.length log2) _) as [ msg | response ];
    [ reflexivity | ].
  destruct (text response) as [ t' | e ]; [ | reflexivity ].
  destruct (ok response); reflexivity.
Qed.

(** *** Listing the cases *)

(** C10. When the answer to the [GET] of [lar-list-cases] is in the 2xx
    range and parses to an empty array or to a value that is no array, the
    result is the text [No hay casos disponibles en el sistema.] with no
    [cases] field; when it parses to a non-empty array, the result is the
    JSON text of the array together with the array as [cases]. *)
Theorem C10_list_cases w log tokenJWT log1 response cases :
  loginAPI w log = (Normal tokenJWT, log1) ->
  fetch_answer w (List.length log1) (get_request w "/api/cases" tokenJWT)
    = FetchResolved response ->
  ok response = true ->
  json rt response = Normal cases ->
  (cases = JArr [] \/ JS.isArray cases = false ->
   handle rt LarListCases w log
   = (Normal (mkResult
                [mkContent "text" "No hay casos disponibles en el sistema."]
                []),
      (log1 ++ [ViaFetch (get_request w "/api/cases" tokenJWT)])%list))
  /\
  (forall first others, cases = JArr (first :: others) ->
   handle rt LarListCases w log
   = (Normal (mkResult [mkContent "text" (JSON_stringify rt cases)]
                       [("cases", cases)]),
      (log1 ++ [ViaFetch (get_request w "/api/cases" tokenJWT)])%list)).
Proof.
  intros Hlogin Hanswer Hok Hjson.
  cbn [handle]. unfold lar_list_cases, lar_list_cases_try, get_request in *.
  split.
  - intros H.
    cbv beta iota zeta
        delta [bind ret lift throw try_catch endpoint getenv fetch report negb].
    rewrite Hlogin. cbv beta iota. rewrite Hanswer, Hok. cbv beta iota.
    rewrite Hjson.
    destruct H as [-> | H]; [ reflexivity | ].
    rewrite H. reflexivity.
  - intros first others ->.
    cbv beta iota zeta
        delta [bind ret lift throw try_catch endpoint getenv fetch report negb].
    rewrite Hlogin. cbv beta iota. rewrite Hanswer, Hok. cbv beta iota.
    rewrite Hjson. reflexivity.
Qed.

(** *** The merge of the edit tools *)

(** The steps of a run up to the request that sends, with what is known
    of the answers among the hypotheses. *)
Ltac edit_steps :=
  repeat (cbv beta iota zeta
              delta [bind ret lift throw try_catch endpoint getenv fetch
                     report or_else defined_or negb snd];
          try match goal with
              | H : ?x = _ |- context [?x] => rewrite H
              end;
          cbn [get_prop]).


(** The object literal of [lar-edit-case] on a fetched object: the one
    step that may fail or call is the assignee. *)
Lemma updatedCaseData_object fields title description status_ clientId
    assignedUserId w log :
  updatedCaseData (JObj fields) title description status_ clientId
    assignedUserId w log
  = bind match assignedUserId with
         | Some given => ret (JS.of_pos given)
         | None => getUserId
         end
         (fun assignee =>
            ret [("title", match title with
                           | Some (String _ _ as given) => JStr given
                           | Some "" | None => JS.field "title" fields
                           end);
                 ("description", match description with
                                 | Some given => JStr given
                                 | None => JS.field "description" fields
                                 end);
                 ("status", match status_ with
                            | Some given => JS.of_status given
                            | None => JS.field "status" fields
                            end);
                 ("clientId", match clientId with
                              | Some given => JS.of_pos given
                              | None => JS.field "clientId" fields
                              end);
                 ("assignedUserId", assignee)]) w log.
Proof.
  unfold updatedCaseData.
  destruct title as [ [ | c title ] | ], description,
    status_ as [ [ | | ] | ], clientId, assignedUserId; reflexivity.
Qed.

(** C4, as the handlers have it. The [PUT] of [lar-edit-client] carries, for [name] and
    [contactInformation], the string given by the caller, the empty string
    included, and the fetched value when none is given; for [address] and
    [notes] the given string, the empty one included, and otherwise the
    fetched value when it is truthy.  The [PUT] of [lar-edit-case] carries
    the given [description], the empty string included, else the fetched
    one; a given [status] or [clientId], else the fetched one; the given
    [assignedUserId], else the result of [getUserId]; a given [title] that
    is not empty, and the fetched title when the given one is empty or
    missing; for [courtDate] the ISO form of a given date that is not
    empty, and the fetched date, when truthy, when the given one is empty
    or missing. *)
Theorem C4_edit_merge :
  (forall clientId name contactInformation address notes w log tokenJWT log1
          getResponse fields idUser log2,
      let path := "/api/clients/" ++ Text.of_pos clientId in
      loginAPI w log = (Normal tokenJWT, log1) ->
      fetch_answer w (List.length log1) (get_request w path tokenJWT)
        = FetchResolved getResponse ->
      ok getResponse = true ->
      json rt getResponse = Normal (JObj fields) ->
      getUserId w (log1 ++ [ViaFetch (get_request w path tokenJWT)])%list
        = (Normal idUser, log2) ->
      exists data,
        snd (handle rt (LarEditClient clientId name contactInformation
                          address notes) w log)
        = (log2 ++ [ViaFetch (put_request w path tokenJWT data)])%list
        /\ JS.field "name" data
           = match name with
             | Some given => JStr given
             | None => JS.field "name" fields
             end
        /\ JS.field "contactInformation" data
           = match contactInformation with
             | Some given => JStr given
             | None => JS.field "contactInformation" fields
             end
        /\ JS.field "address" data
           = match address with
             | Some given => JStr given
             | None => kept (JS.field "address" fields)
             end
        /\ JS.field "notes" data
           = match notes with
             | Some given => JStr given
             | None => kept (JS.field "notes" fields)
             end)
  /\
  (forall caseId title description status_ courtDate clientId assignedUserId
          w log tokenJWT log1 getResponse fields idUser log2 iso,
      let path := "/api/cases/" ++ Text.of_pos caseId in
      let fetched := (log1 ++ [ViaFetch (get_request w path tokenJWT)])%list in
      loginAPI w log = (Normal tokenJWT, log1) ->
      fetch_answer w (List.length log1) (get_request w path tokenJWT)
        = FetchResolved getResponse ->
      ok getResponse = true ->
      json rt getResponse = Normal (JObj fields) ->
      (assignedUserId = None -> getUserId w fetched = (Normal idUser, log2)) ->
      (assignedUserId <> None -> log2 = fetched) ->
      (forall given, courtDate = Some given -> given <> "" ->
                     Date_toISOString rt given = Some iso) ->
      exists data,
        snd (handle rt (LarEditCase caseId title description status_ courtDate
                          clientId assignedUserId) w log)
        = (log2 ++ [ViaFetch (put_request w path tokenJWT data)])%list
        /\ JS.field "title" data
           = match title with
             | Some (String _ _ as given) => JStr given
             | Some "" | None => JS.field "title" fields
             end
        /\ JS.field "description" data
           = match description with
             | Some given => JStr given
             | None => JS.field "description" fields
             end
        /\ JS.field "status" data
           = match status_ with
             | Some given => JS.of_status given
             | None => JS.field "status" fields
             end
        /\ JS.field "clientId" data
           = match clientId with
             | Some given => JS.of_pos given
             | None => JS.field "clientId" fields
             end
        /\ JS.field "assignedUserId" data
           = match assignedUserId with
             | Some given => JS.of_pos given
             | None => idUser
             end
        /\ JS.field "courtDate" data
           = match courtDate with
             | Some (String _ _) => JStr iso
             | Some "" | None => kept (JS.field "courtDate" fields)
             end).
Proof.
  split.
  - intros clientId name contactInformation address notes w log tokenJWT log1
      getResponse fields idUser log2 path Hlogin Hanswer Hok Hjson Huser.
    subst path. cbn [handle].
    unfold lar_edit_client, lar_edit_client_try, get_request, put_request,
      updatedClientData, keep_if_truthy, kept in *.
    destruct name, contactInformation, address, notes;
      try destruct (JS.truthy (JS.field "address" fields)) eqn:Haddress;
      try destruct (JS.truthy (JS.field "notes" fields)) eqn:Hnotes;
      eexists;
      (split;
       [ edit_steps;
         destruct (fetch_answer w (List.length log2) _) as [ msg | response ];
         [ reflexivity | ];
         cbv beta iota;
         destruct (text response) as [ t' | e ]; [ | reflexivity ];
         cbv beta iota;
         destruct (ok response); reflexivity
       | repeat split; cbn; try rewrite Haddress; try rewrite Hnotes;
         reflexivity ]).
  - intros caseId title description status_ courtDate clientId assignedUserId
      w log tokenJWT log1 getResponse fields idUser log2 iso path fetched
      Hlogin Hanswer Hok Hjson Huser Hgiven Hdate.
    subst path fetched. cbn [handle].
    unfold lar_edit_case, lar_edit_case_try, get_request, put_request,
      keep_if_truthy, kept, truthy_text in *.
    pose proof (updatedCaseData_object fields title description status_
                  clientId assignedUserId w) as Hmerge.
    destruct assignedUserId as [ assignee | ];
      [ rewrite (Hgiven ltac:(discriminate)); clear Huser Hgiven
      | specialize (Huser eq_refl); clear Hgiven ].
    all: destruct courtDate as [ [ | c date ] | ];
      [ clear Hdate
      | specialize (Hdate _ eq_refl ltac:(discriminate))
      | clear Hdate ].
    all: try destruct (JS.truthy (JS.field "courtDate" fields)) eqn:Hcurrent;
      eexists;
      (split;
       [ edit_steps; rewrite Hmerge; edit_steps;
         cbn [Text.is_empty]; edit_steps;
         match goal with
         | |- context [fetch_answer ?w0 (List.length ?l) ?r] =>
             destruct (fetch_answer w0 (List.length l) r) as [ msg | response ]
         end;
         [ reflexivity | ];
         cbv beta iota;
         destruct (text response) as [ t' | e ]; [ | reflexivity ];
         cbv beta iota;
         destruct (ok response); reflexivity
       | repeat split; cbn; try rewrite Hcurrent; reflexivity ]).
Qed.

(** C5, as the handlers have it. The tools that send with [POST] or [PUT] read the answer
    leniently: when the run of [lar-upload-document], [lar-create-client],
    [lar-edit-client], [lar-create-case] or [lar-edit-case] ends with that
    request and the body [t] of its answer is not valid JSON, the result is
    the tool's usual success or failure result, with [{ raw: t }] as the
    parsed value.  The tools that read the answer to a [GET] with
    [response.json()] (the three listings, the first step of the two edit
    tools) report the parser's message through their [catch] clause. *)
Theorem C5_lenient_parse_on_send_strict_on_get :
  (forall call w log result pre request response t msg,
      tolerant call = true ->
      handle rt call w log
      = (Normal result, (log ++ pre ++ [ViaFetch request])%list) ->
      is_send (ViaFetch request) = true ->
      fetch_answer w (List.length (log ++ pre)) request = FetchResolved response ->
      text response = Normal t ->
      JSON_parse rt t = inl msg ->
      result = raw_result call response t)
  /\
  (forall call path w log tokenJWT log1 response t msg,
      strict_path call = Some path ->
      loginAPI w log = (Normal tokenJWT, log1) ->
      fetch_answer w (List.length log1) (get_request w path tokenJWT)
        = FetchResolved response ->
      ok response = true ->
      text response = Normal t ->
      JSON_parse rt t = inl msg ->
      handle rt call w log
      = (Normal (text_result (catch_words call ++ msg)),
         (log1 ++ [ViaFetch (get_request w path tokenJWT)])%list)).
Proof.
  split.
  - intros call w log result pre request response t msg
      Htol Hrun Hsend Hanswer Ht Hparse.
    rewrite handle_try_catch in Hrun.
    destruct (Sends_try _ _ (catch_words call) (tool_try_sends call Htol)
                _ _ _ _ Hrun) as (d & Hd & H).
    apply app_inv_head in Hd. symmetry in Hd.
    specialize (H pre request response t msg Hd Hsend Hanswer Ht Hparse).
    now inversion H.
  - apply strict_parse_error.
Qed.

(** C6, as the handlers have it. A failure thrown inside the [try] of a handler becomes
    the result whose text is the words of that handler's [catch] clause
    followed by the failure's message: [Error en el proceso: ] for nine of
    the tools, [Error al obtener los documentos: ], [... los clientes: ]
    and [... los casos: ] for the three listings. *)
Theorem C6_catch_reports_message call w log e log' :
  tool_try rt call w log = (Throw e, log') ->
  handle rt call w log
  = (Normal (text_result (catch_words call ++ error_message e)), log').
Proof.
  intros H. rewrite handle_try_catch.
  now rewrite (try_catch_Throw _ _ _ _ _ _ H).
Qed.

End HandlerFacts.

Import Demo.

(** [lar-delete-document] and [lar-delete-case] answered with 404, with a
    body that can be read and with one that cannot. *)
Lemma C2_witness :
  handle rt (LarDeleteDocument "contract.pdf") w_delete_404 []
  = (Normal (text_result
               ("No se encontró ningún documento con el nombre "
                ++ q ++ "contract.pdf" ++ q ++ ".")),
     [login_call;
      ViaFetch (delete_request w_delete_404 "/api/files/contract.pdf" token)])
  /\ handle rt (LarDeleteCase 7) w_delete_404 []
     = (Normal (text_result "Error al eliminar el caso: 404 - Not Found"),
        [login_call;
         ViaFetch (delete_request w_delete_404 "/api/cases/7" token)])
  /\ handle rt (LarDeleteDocument "contract.pdf") w_delete_404_unread []
     = (Normal (text_result "Error en el proceso: terminated"),
        [login_call;
         ViaFetch (delete_request w_delete_404_unread
                     "/api/files/contract.pdf" token)]).
Proof.
  destruct (C2_delete_answered_404 rt (LarDeleteDocument "contract.pdf")
              "/api/files/contract.pdf" w_delete_404 [] token [login_call]
              (mkResponse 404 json_type
                 (Some [Chunk (list_byte_of_string "Not Found")]))
              eq_refl eq_refl eq_refl eq_refl) as [Hdocument _].
  destruct (C2_delete_answered_404 rt (LarDeleteCase 7)
              "/api/cases/7" w_delete_404 [] token [login_call]
              (mkResponse 404 json_type
                 (Some [Chunk (list_byte_of_string "Not Found")]))
              eq_refl eq_refl eq_refl eq_refl) as [Hcase _].
  destruct (C2_delete_answered_404 rt (LarDeleteDocument "contract.pdf")
              "/api/files/contract.pdf" w_delete_404_unread [] token
              [login_call] unread_404
              eq_refl eq_refl eq_refl eq_refl) as [_ Hunread].
  split; [ exact (Hdocument "Not Found" eq_refl) | ].
  split; [ exact (Hcase "Not Found" eq_refl) | ].
  exact (Hunread (mkError "terminated") eq_refl).
Defined.

(** A 404 on [lar-delete-case] is reported with the general message. *)
Lemma C2_counterexample :
  status (mkResponse 404 json_type
            (Some [Chunk (list_byte_of_string "Not Found")])) = 404%Z
  /\ fst (handle rt (LarDeleteCase 7) w_delete_404 [])
     = Normal (text_result "Error al eliminar el caso: 404 - Not Found").
Proof. split; reflexivity. Qed.

(** Without configuration [lar-list-cases] and [lar-ask] make no call. *)
Lemma C3_witness :
  handle rt LarListCases w_unconfigured []
  = (Normal (text_result
               "Error al obtener los casos: Faltan las variables de entorno API_URL, API_EMAIL o API_PASSWORD"),
     [])
  /\ handle rt (LarAsk "hi" 3) w_unconfigured []
     = (Normal (text_result
                  "Error en el proceso: Faltan las variables de entorno API_URL, API_EMAIL o API_PASSWORD"),
        []).
Proof.
  split.
  - exact (C3_unconfigured rt LarListCases w_unconfigured []
             (or_introl eq_refl)).
  - exact (C3_unconfigured rt (LarAsk "hi" 3) w_unconfigured []
             (or_introl eq_refl)).
Defined.

(** Without configuration [lar-upload-document] still downloads. *)
Lemma C3_counterexample :
  API_URL (env w_unconfigured_pdf) = None
  /\ handle rt (LarUploadDocument "doc" "http://files.test/doc.pdf")
       w_unconfigured_pdf []
     = (Normal (text_result ("Error en el proceso: " ++ config_error)),
        [ViaFetch (download_request "http://files.test/doc.pdf")]).
Proof. split; reflexivity. Qed.

(** [lar-edit-client] called with an empty name and an empty address, and
    [lar-edit-case] called with an empty title, an empty description and a
    date. *)
Lemma C4_witness :
  (exists data,
      snd (handle rt (LarEditClient 7 (Some "") None (Some "") None)
             w_edit_client [])
      = (([login_call;
           ViaFetch (get_request w_edit_client "/api/clients/7" token)]
          ++ user_calls)
         ++ [ViaFetch (put_request w_edit_client "/api/clients/7" token data)])%list
      /\ JS.field "name" data = JStr ""
      /\ JS.field "contactInformation" data = JStr "x"
      /\ JS.field "address" data = JStr ""
      /\ JS.field "notes" data = JUndefined)
  /\ (exists data,
         snd (handle rt (LarEditCase 7 (Some "") (Some "") None
                           (Some "2025-03-01") None None) w_edit_case [])
         = (([login_call;
              ViaFetch (get_request w_edit_case "/api/cases/7" token)]
             ++ user_calls)
            ++ [ViaFetch (put_request w_edit_case "/api/cases/7" token data)])%list
         /\ JS.field "title" data = JStr "Old title"
         /\ JS.field "description" data = JStr ""
         /\ JS.field "status" data = JStr "Open"
         /\ JS.field "clientId" data = JNum 3
         /\ JS.field "assignedUserId" data = JStr "u-1"
         /\ JS.field "courtDate" data = JStr "2025-03-01T00:00:00.000Z").
Proof.
  split.
  - apply (proj1 (C4_edit_merge rt) 7%positive (Some "") None (Some "") None
             w_edit_client [] token [login_call]
             (mkResponse 200 json_type
                (Some [Chunk (list_byte_of_string acme_text)]))
             [("name", JStr "Acme"); ("contactInformation", JStr "x");
              ("address", JStr "Y")]
             (JStr "u-1")); reflexivity.
  - apply (proj2 (C4_edit_merge rt) 7%positive (Some "") (Some "") None
             (Some "2025-03-01") None None
             w_edit_case [] token [login_call]
             (mkResponse 200 json_type
                (Some [Chunk (list_byte_of_string case_text)]))
             [("title", JStr "Old title"); ("description", JStr "d");
              ("status", JStr "Open"); ("clientId", JNum 3)]
             (JStr "u-1")
             ([login_call;
               ViaFetch (get_request w_edit_case "/api/cases/7" token)]
              ++ user_calls)%list
             "2025-03-01T00:00:00.000Z");
      try reflexivity.
    + intros H. now destruct H.
    + intros given E _. injection E as <-. reflexivity.
Defined.

(** [lar-edit-case] called with an empty title sends the fetched title,
    and called with an empty date sends the fetched date. *)
Lemma C4_counterexample :
  snd (handle rt (LarEditCase 7 (Some "") None None None None None)
         w_edit_case [])
  = ([login_call;
      ViaFetch (get_request w_edit_case "/api/cases/7" token)]
     ++ user_calls
     ++ [ViaFetch
           (put_request w_edit_case "/api/cases/7" token
              [("title", JStr "Old title"); ("description", JStr "d");
               ("status", JStr "Open"); ("clientId", JNum 3);
               ("assignedUserId", JStr "u-1")])])%list
  /\ snd (handle rt (LarEditCase 7 None None None (Some "") None None)
            w_edit_dated [])
     = ([login_call;
         ViaFetch (get_request w_edit_dated "/api/cases/7" token)]
        ++ user_calls
        ++ [ViaFetch
              (put_request w_edit_dated "/api/cases/7" token
                 [("title", JStr "Old title"); ("description", JUndefined);
                  ("status", JUndefined); ("clientId", JUndefined);
                  ("assignedUserId", JStr "u-1");
                  ("courtDate", JStr "2024-05-06T00:00:00Z")])])%list.
Proof. split; reflexivity. Qed.

(** A body that is not JSON: kept raw by [lar-create-client], a parse
    error for [lar-list-documents]. *)
Lemma C5_witness :
  fst (handle rt (LarCreateClient "Acme" "x" None None) w_create_client [])
  = Normal (mkResult [mkContent "text" "Cliente creado correctamente.}"]
                     [("client", JObj [("raw", JStr "Created")])])
  /\ fst (handle rt LarListDocuments w_html_listing [])
     = Normal (text_result
                 "Error al obtener los documentos: Unexpected token < in JSON at position 0").
Proof.
  destruct (C5_lenient_parse_on_send_strict_on_get rt) as [Hsend Hget].
  split.
  - pose (request :=
            mkRequest POST "http://api.test/api/clients"
              (json_send_headers token)
              (JsonBody (JObj [("idUser", JStr "u-1"); ("name", JStr "Acme");
                               ("contactInformation", JStr "x")]))).
    pose (result :=
            mkResult [mkContent "text" "Cliente creado correctamente.}"]
                     [("client", JObj [("raw", JStr "Created")])]).
    assert (E : handle rt (LarCreateClient "Acme" "x" None None)
                  w_create_client []
                = (Normal result,
                   ([] ++ (login_call :: user_calls) ++ [ViaFetch request])%list))
      by reflexivity.
    pose proof
      (Hsend (LarCreateClient "Acme" "x" None None) w_create_client []
         result (login_call :: user_calls) request
         (mkResponse 201 (Some "text/plain")
            (Some [Chunk (list_byte_of_string "Created")]))
         "Created" "Unexpected token C in JSON at position 0"
         eq_refl E eq_refl eq_refl eq_refl eq_refl) as Hresult.
    rewrite E. cbn [fst]. rewrite Hresult. reflexivity.
  - rewrite (Hget LarListDocuments "/api/files" w_html_listing [] token
               [login_call]
               (mkResponse 200 (Some "text/html")
                  (Some [Chunk (list_byte_of_string "<html>")]))
               "<html>" "Unexpected token < in JSON at position 0");
      reflexivity.
Defined.

(** [lar-list-documents] on a body that is not JSON. *)
Lemma C5_counterexample :
  JSON_parse rt "<html>" = inl "Unexpected token < in JSON at position 0"
  /\ handle rt LarListDocuments w_html_listing []
     = (Normal (text_result
                  "Error al obtener los documentos: Unexpected token < in JSON at position 0"),
        [login_call; ViaFetch (get_request w_html_listing "/api/files" token)]).
Proof. split; reflexivity. Qed.

(** The configuration error thrown inside [lar-ask]. *)
Lemma C6_witness :
  handle rt (LarAsk "hi" 3) w_unconfigured []
  = (Normal (text_result ("Error en el proceso: " ++ config_error)), []).
Proof.
  exact (C6_catch_reports_message rt (LarAsk "hi" 3) w_unconfigured []
           (mkError config_error) [] eq_refl).
Defined.

(** The same error thrown inside [lar-list-documents]. *)
Lemma C6_counterexample :
  tool_try rt LarListDocuments w_unconfigured []
  = (Throw (mkError config_error), [])
  /\ handle rt LarListDocuments w_unconfigured []
     = (Normal (text_result
                  ("Error al obtener los documentos: " ++ config_error)), []).
Proof. split; reflexivity. Qed.

(** An HTML page served as [application/pdf]. *)
Lemma C7_witness :
  handle rt (LarUploadDocument "doc" "http://files.test/doc")
    (w_download "application/pdf") []
  = (Normal (text_result not_valid_pdf),
     [ViaFetch (download_request "http://files.test/doc")]).
Proof.
  apply (C7_not_a_pdf rt "doc" "http://files.test/doc"
           (w_download "application/pdf") []
           (mkResponse 200 (Some "application/pdf")
              (Some [Chunk (list_byte_of_string "<html>")]))
           (list_byte_of_string "<html>"));
    [ reflexivity | reflexivity | discriminate ].
Defined.

(** An HTML page served as [text/html]. *)
Lemma C7_counterexample :
  firstn 5 (list_byte_of_string "<html>") <> list_byte_of_string pdf_magic
  /\ handle rt (LarUploadDocument "doc" "http://files.test/doc")
       (w_download "text/html") []
     = (Normal (text_result
                  "Solo se permiten archivos PDF. El archivo descargado no tiene tipo PDF."),
        [ViaFetch (download_request "http://files.test/doc")]).
Proof. split; [ discriminate | reflexivity ]. Qed.

(** [lar-edit-client] with the id alone. *)
Lemma C9_witness :
  snd (handle rt (LarEditClient 5 None None None None) w_edit_client [])
  = ([login_call; ViaFetch (get_request w_edit_client "/api/clients/5" token)]
     ++ user_calls
     ++ [ViaFetch
           (put_request w_edit_client "/api/clients/5" token
              [("idUser", JStr "u-1"); ("name", JStr "Acme");
               ("contactInformation", JStr "x"); ("address", JStr "Y")])])%list.
Proof.
  destruct (C9_edit_client_without_fields rt 5 w_edit_client [] token
              [login_call]
              (mkResponse 200 json_type
                 (Some [Chunk (list_byte_of_string acme_text)]))
              acme_text (JStr "u-1")
              ([login_call;
                ViaFetch (get_request w_edit_client "/api/clients/5" token)]
               ++ user_calls)%list
              eq_refl eq_refl eq_refl eq_refl eq_refl eq_refl)
    as (data & Hcalls & -> & _).
  exact Hcalls.
Defined.

(** [lar-list-cases] on an empty and on a non-empty array. *)
Lemma C10_witness :
  fst (handle rt LarListCases (w_cases "[]") [])
  = Normal (text_result "No hay casos disponibles en el sistema.")
  /\ fst (handle rt LarListCases (w_cases cases_text) [])
     = Normal (mkResult [mkContent "text" (stringify one_case)]
                        [("cases", one_case)]).
Proof.
  split.
  - destruct (C10_list_cases rt (w_cases "[]") [] token [login_call]
                (mkResponse 200 json_type
                   (Some [Chunk (list_byte_of_string "[]")]))
                (JArr []) eq_refl eq_refl eq_refl eq_refl) as [Hnone _].
    now rewrite (Hnone (or_introl eq_refl)).
  - destruct (C10_list_cases rt (w_cases cases_text) [] token [login_call]
                (mkResponse 200 json_type
                   (Some [Chunk (list_byte_of_string cases_text)]))
                one_case eq_refl eq_refl eq_refl eq_refl) as [_ Hsome].
    now rewrite (Hsome _ _ eq_refl).
Defined.

(** [lar-ask] on the stream of the two frames. *)
Example lar_ask_hello_world :
  fst (handle rt (LarAsk "hi" 3) w_ask [])
  = Normal (mkResult [mkContent "text" "HelloWorld"]
                     [("question", JStr "hi"); ("fileId", JNum 3)]).
Proof. reflexivity. Qed.

(** * More on the handlers *)

(** ** The calls of a run *)

Lemma Silent_throw {A} e : Silent (@throw A e).
Proof. now intros w log. Qed.

Lemma Silent_getenv : Silent getenv.
Proof. now intros w log. Qed.

Lemma Silent_now : Silent now.
Proof. now intros w log. Qed.

Lemma Silent_endpoint path : Silent (endpoint path).
Proof. now intros w log. Qed.

Ltac silent_more :=
  repeat first
    [ apply Silent_ret | apply Silent_lift | apply Silent_throw
    | apply Silent_getenv | apply Silent_now | apply Silent_endpoint
    | apply Silent_bind; [ | intro ]
    | progress (cbv zeta; unfold or_else, defined_or)
    | match goal with
      | |- Silent (if ?b then _ else _) => destruct b
      | |- Silent (match ?x with _ => _ end) => destruct x
      end ].

Lemma OnlyAt_silent {A} w P (m : M A) : Silent m -> OnlyAt w P m.
Proof.
  intros Hs log c log' E. specialize (Hs w log). rewrite E in Hs.
  cbn in Hs. subst log'. exists []. split; [ now rewrite app_nil_r | constructor ].
Qed.

Lemma OnlyAt_bind {A B} w P (m : M A) (k : A -> M B) :
  OnlyAt w P m -> (forall a, OnlyAt w P (k a)) -> OnlyAt w P (bind m k).
Proof.
  intros Hm Hk log c log' E. unfold bind in E.
  destruct (m w log) as [[a | e] log1] eqn:Em.
  - destruct (Hm _ _ _ Em) as (d1 & -> & F1).
    destruct (Hk a _ _ _ E) as (d2 & -> & F2).
    exists (d1 ++ d2)%list. split; [ now rewrite app_assoc | now apply Forall_app ].
  - inversion E; subst. exact (Hm _ _ _ Em).
Qed.

(** The URL a handler builds is the configured base and the path. *)
Lemma OnlyAt_endpoint {B} w P path (k : string -> M B) :
  OnlyAt w P (k (api_url (env w) path)) -> OnlyAt w P (bind (endpoint path) k).
Proof. intros H log c log' E. exact (H log c log' E). Qed.

Lemma OnlyAt_fetch w (P : NetCall -> Prop) request :
  P (ViaFetch request) -> OnlyAt w P (fetch request).
Proof.
  intros H log c log' E. unfold fetch in E. inversion E; subst.
  exists [ViaFetch request]. split; [ reflexivity | now repeat constructor ].
Qed.

Lemma OnlyAt_axios w (P : NetCall -> Prop) request :
  P (ViaAxios request) -> OnlyAt w P (axios request).
Proof.
  intros H log c log' E. unfold axios in E. inversion E; subst.
  exists [ViaAxios request]. split; [ reflexivity | now repeat constructor ].
Qed.

Lemma OnlyAt_try w P (m : M ToolResult) words :
  OnlyAt w P m -> OnlyAt w P (try_catch m (report words)).
Proof.
  intros Hm log c log' E. unfold try_catch in E.
  destruct (m w log) as [[a | e] log1] eqn:Em;
    destruct (Hm _ _ _ Em) as (d & -> & F).
  - inversion E; subst. eauto.
  - unfold report, ret in E. inversion E; subst. eauto.
Qed.

(** Steps through a computation for [OnlyAt]: [only_known] holds the
    lemmas for the functions already dealt with, [only_call] proves that
    a call is one of those wanted. *)
Ltac only_known := fail.
Ltac only_call := fail.

Ltac only_steps :=
  repeat first
    [ only_known
    | apply OnlyAt_endpoint
    | apply OnlyAt_fetch; solve [ only_call ]
    | apply OnlyAt_axios; solve [ only_call ]
    | apply OnlyAt_silent; solve [ silent_more ]
    | apply OnlyAt_bind; [ | intro ]
    | progress (cbv zeta; unfold or_else, defined_or)
    | match goal with
      | |- OnlyAt _ _ (if ?b then _ else _) => destruct b
      | |- OnlyAt _ _ (match ?x with _ => _ end) => destruct x
      end ].

Lemma OnlyAt_loginAPI w (P : NetCall -> Prop) :
  (forall request, P (ViaAxios request)) -> OnlyAt w P loginAPI.
Proof.
  intros H. unfold loginAPI.
  repeat first
    [ apply OnlyAt_axios; apply H
    | apply OnlyAt_silent; solve [ silent_more ]
    | apply OnlyAt_bind; [ | intro ]
    | progress cbv zeta
    | match goal with
      | |- OnlyAt _ _ (if ?b then _ else _) => destruct b
      end ].
Qed.

Lemma OnlyAt_getUserId w (P : NetCall -> Prop) :
  (forall request, P (ViaAxios request)) -> OnlyAt w P getUserId.
Proof.
  intros H. unfold getUserId.
  apply OnlyAt_bind; [ now apply OnlyAt_loginAPI | intro ].
  apply OnlyAt_bind; [ apply OnlyAt_silent, Silent_getenv | intro ].
  apply OnlyAt_bind; [ apply OnlyAt_axios, H | intro ].
  apply OnlyAt_silent, Silent_lift.
Qed.

Lemma OnlyAt_updatedClientData w P idUser currentClient name
    contactInformation address notes :
  OnlyAt w P (updatedClientData idUser currentClient name contactInformation
                address notes).
Proof.
  apply OnlyAt_silent. unfold updatedClientData. silent_more.
Qed.

Lemma OnlyAt_updatedCaseData w (P : NetCall -> Prop) currentCase title
    description status_ clientId assignedUserId :
  (forall request, P (ViaAxios request)) ->
  OnlyAt w P (updatedCaseData currentCase title description status_ clientId
                assignedUserId).
Proof.
  intros H. unfold updatedCaseData.
  repeat first
    [ apply OnlyAt_getUserId; exact H
    | apply OnlyAt_silent; solve [ silent_more ]
    | apply OnlyAt_bind; [ | intro ]
    | progress (cbv zeta; unfold or_else, defined_or)
    | match goal with
      | |- OnlyAt _ _ (if ?b then _ else _) => destruct b
      end ].
Qed.

Ltac only_known ::=
  first [ apply OnlyAt_loginAPI; intro; solve [ only_call ]
        | apply OnlyAt_getUserId; intro; solve [ only_call ]
        | apply OnlyAt_updatedClientData
        | apply OnlyAt_updatedCaseData; intro; solve [ only_call ] ].

Ltac unfold_handlers :=
  cbn [handle];
  unfold lar_ask, lar_ask_try, lar_upload_document, lar_upload_document_try,
    lar_delete_document, lar_delete_document_try,
    lar_list_documents, lar_list_documents_try,
    lar_list_clients, lar_list_clients_try,
    lar_create_client, lar_create_client_try,
    lar_delete_client, lar_delete_client_try,
    lar_edit_client, lar_edit_client_try,
    lar_list_cases, lar_list_cases_try,
    lar_create_case, lar_create_case_try,
    lar_delete_case, lar_delete_case_try,
    lar_edit_case, lar_edit_case_try.

Ltac only_call ::=
  cbn [allowed_call];
  first [ exact I
        | left; do 2 eexists; split; [ reflexivity | simpl; eauto ]
        | right; do 2 eexists; split; reflexivity ].

Section MoreHandlerFacts.

Variable rt : Runtime.

(** X1. Whatever the world answers, every request a handler makes with
    [fetch] goes to the configured backend with an
    [Authorization: Bearer ...] header; the one exception is the download
    of the document by [lar-upload-document]. *)
Theorem X1_fetches_carry_bearer call w log :
  exists d,
    snd (handle rt call w log) = (log ++ d)%list
    /\ Forall (allowed_call w call) d.
Proof.
  assert (H : OnlyAt w (allowed_call w call) (handle rt call)).
  { destruct call; unfold_handlers; apply OnlyAt_try;
      only_steps. }
  destruct (handle rt call w log) as [c log'] eqn:E.
  exact (H log c log' E).
Qed.

End MoreHandlerFacts.

(** ** At most one request changes the backend *)

Ltac only_call ::= reflexivity.

Lemma WritesLast_only {A} w (m : M A) : OnlyAt w reads m -> WritesLast w m.
Proof.
  intros H log c log' E. destruct (H _ _ _ E) as (d & -> & F).
  exists d. split; [ reflexivity | now left ].
Qed.

Lemma WritesLast_bind {A B} w (m : M A) (k : A -> M B) :
  OnlyAt w reads m -> (forall a, WritesLast w (k a)) -> WritesLast w (bind m k).
Proof.
  intros Hm Hk log c log' E. unfold bind in E.
  destruct (m w log) as [[a | e] log1] eqn:Em;
    destruct (Hm _ _ _ Em) as (d1 & -> & F1).
  - destruct (Hk a _ _ _ E) as (d2 & -> & [F2 | (pre & r & -> & F2)]).
    + exists (d1 ++ d2)%list. split; [ now rewrite app_assoc | ].
      left. now apply Forall_app.
    + exists (d1 ++ pre ++ [ViaFetch r])%list.
      split; [ now rewrite !app_assoc | ].
      right. exists (d1 ++ pre)%list, r.
      split; [ now rewrite app_assoc | now apply Forall_app ].
  - inversion E; subst. exists d1. split; [ reflexivity | now left ].
Qed.

Lemma WritesLast_endpoint {B} w path (k : string -> M B) :
  WritesLast w (k (api_url (env w) path)) -> WritesLast w (bind (endpoint path) k).
Proof. intros H log c log' E. exact (H log c log' E). Qed.

(** A request after which the handler makes no call. *)
Lemma WritesLast_fetch {B} w request (rest : Response -> M B) :
  (forall response, Silent (rest response)) ->
  WritesLast w (bind (fetch request) rest).
Proof.
  intros Hrest log c log' E. unfold bind, fetch in E.
  exists [ViaFetch request].
  split; [ | right; exists [], request; split; [ reflexivity | constructor ] ].
  destruct (fetch_answer w (List.length log) request) as [ msg | response ].
  - now inversion E.
  - specialize (Hrest response w (log ++ [ViaFetch request])%list).
    rewrite E in Hrest. cbn in Hrest. now subst.
Qed.

Lemma WritesLast_try w (m : M ToolResult) words :
  WritesLast w m -> WritesLast w (try_catch m (report words)).
Proof.
  intros Hm log c log' E. unfold try_catch in E.
  destruct (m w log) as [[a | e] log1] eqn:Em;
    destruct (Hm _ _ _ Em) as (d & -> & F).
  - inversion E; subst. eauto.
  - unfold report, ret in E. inversion E; subst. eauto.
Qed.

Ltac writes_last :=
  repeat first
    [ apply WritesLast_endpoint
    | apply WritesLast_fetch; intro; solve [ silent_more ]
    | apply WritesLast_bind; [ solve [ only_steps ] | intro ]
    | progress (cbv zeta; unfold or_else, defined_or)
    | match goal with
      | |- WritesLast _ (if ?b then _ else _) => destruct b
      | |- WritesLast _ (match ?x with _ => _ end) => destruct x
      end
    | apply WritesLast_only; solve [ only_steps ] ].

Section OneWrite.

Variable rt : Runtime.

(** X2. Whatever the world answers, a handler makes at most one request
    that changes the backend (a [fetch] with [POST], [PUT] or [DELETE]),
    and makes no call after it. *)
Theorem X2_one_write_and_last call w log :
  exists d,
    snd (handle rt call w log) = (log ++ d)%list /\ writes_last d.
Proof.
  assert (H : WritesLast w (handle rt call)).
  { destruct call; unfold_handlers; apply WritesLast_try; writes_last. }
  destruct (handle rt call w log) as [c log'] eqn:E.
  exact (H log c log' E).
Qed.

End OneWrite.

(** ** No more than five calls *)

Lemma AtMost_silent {A} w n (m : M A) : Silent m -> AtMost w n m.
Proof.
  intros Hs log c log' E. specialize (Hs w log). rewrite E in Hs.
  cbn in Hs. subst log'. exists []. split; [ now rewrite app_nil_r | cbn; lia ].
Qed.

Lemma AtMost_bind {A B} w c n (m : M A) (k : A -> M B) :
  AtMost w c m -> (forall a, AtMost w (n - c) (k a)) -> (c <= n)%nat ->
  AtMost w n (bind m k).
Proof.
  intros Hm Hk Hle log r log' E. unfold bind in E.
  destruct (m w log) as [[a | e] log1] eqn:Em;
    destruct (Hm _ _ _ Em) as (d1 & -> & L1).
  - destruct (Hk a _ _ _ E) as (d2 & -> & L2).
    exists (d1 ++ d2)%list. split; [ now rewrite app_assoc | ].
    rewrite length_app. lia.
  - inversion E; subst. exists d1. split; [ reflexivity | lia ].
Qed.

Lemma AtMost_fetch w request : AtMost w 1 (fetch request).
Proof.
  intros log c log' E. unfold fetch in E. inversion E; subst.
  exists [ViaFetch request]. split; [ reflexivity | cbn; lia ].
Qed.

Lemma AtMost_axios w request : AtMost w 1 (axios request).
Proof.
  intros log c log' E. unfold axios in E. inversion E; subst.
  exists [ViaAxios request]. split; [ reflexivity | cbn; lia ].
Qed.

Lemma AtMost_try w n (m : M ToolResult) words :
  AtMost w n m -> AtMost w n (try_catch m (report words)).
Proof.
  intros Hm log c log' E. unfold try_catch in E.
  destruct (m w log) as [[a | e] log1] eqn:Em;
    destruct (Hm _ _ _ Em) as (d & -> & F).
  - inversion E; subst. eauto.
  - unfold report, ret in E. inversion E; subst. eauto.
Qed.

Ltac at_most_known := fail.

Ltac at_most :=
  repeat first
    [ apply AtMost_silent; solve [ silent_more ]
    | eapply AtMost_bind;
        [ first [ at_most_known | apply AtMost_fetch | apply AtMost_axios
                | apply (AtMost_silent _ 0); solve [ silent_more ] ]
        | intro
        | cbn; lia ]
    | progress (cbv zeta; unfold or_else, defined_or)
    | match goal with
      | |- AtMost _ _ (if ?b then _ else _) => destruct b
      | |- AtMost _ _ (match ?x with _ => _ end) => destruct x
      end ].

Lemma AtMost_loginAPI w : AtMost w 1 loginAPI.
Proof. unfold loginAPI. at_most. Qed.

Ltac at_most_known ::= apply AtMost_loginAPI.

Lemma AtMost_getUserId w : AtMost w 2 getUserId.
Proof. unfold getUserId. at_most. Qed.

Lemma AtMost_updatedCaseData w currentCase title description status_ clientId
    assignedUserId :
  AtMost w (match assignedUserId with Some _ => 0 | None => 2 end)
    (updatedCaseData currentCase title description status_ clientId
       assignedUserId).
Proof.
  unfold updatedCaseData, or_else.
  destruct assignedUserId as [ n | ];
    cbn [JS.of_option JS.of_pos JS.truthy Z.eqb negb].
  - apply AtMost_silent. silent_more.
  - repeat first
      [ apply AtMost_getUserId
      | apply AtMost_silent; solve [ silent_more ]
      | eapply AtMost_bind;
          [ first [ apply AtMost_getUserId
                  | apply (AtMost_silent _ 0); solve [ silent_more ] ]
          | intro | cbn; lia ] ].
Qed.

Ltac at_most_known ::=
  first [ apply AtMost_loginAPI | apply AtMost_getUserId
        | apply AtMost_updatedCaseData
        | apply (AtMost_silent _ 0); unfold updatedClientData;
          solve [ silent_more ] ].

Section FewCalls.

Variable rt : Runtime.

(** X3. Whatever the world answers, a handler makes at most [max_calls]
    network calls: two for the tools that ask, list or delete, three for
    [lar-upload-document], four for the tools that create, five for the
    tools that edit (three for [lar-edit-case] given an assignee).  No
    call is ever repeated after a failure. *)
Theorem X3_few_calls call w log :
  exists d,
    snd (handle rt call w log) = (log ++ d)%list
    /\ (List.length d <= max_calls call)%nat.
Proof.
  assert (H : AtMost w (max_calls call) (handle rt call)).
  { destruct call; unfold_handlers; cbn [max_calls]; apply AtMost_try;
      try solve [ at_most ].
    destruct assignedUserId; at_most. }
  destruct (handle rt call w log) as [c log'] eqn:E.
  exact (H log c log' E).
Qed.

End FewCalls.

(** ** The text of a result is never empty *)

Lemma Returns_ret P r : P r -> Returns P (ret r).
Proof. intros H w log r' log' E. unfold ret in E. now inversion E; subst. Qed.

Lemma Returns_bind {A} P (m : M A) (k : A -> M ToolResult) :
  (forall a, Returns P (k a)) -> Returns P (bind m k).
Proof.
  intros H w log r log' E. unfold bind in E.
  destruct (m w log) as [[a | e] log1]; [ | discriminate ].
  exact (H a w log1 r log' E).
Qed.

Lemma has_text_words words rest :
  words <> "" -> has_text (text_result (words ++ rest)).
Proof.
  intros H. exists (words ++ rest). split; [ reflexivity | ].
  destruct words; [ contradiction | discriminate ].
Qed.

Lemma catch_words_not_empty call : catch_words call <> "".
Proof. destruct call; discriminate. Qed.

Section TextOfAResult.

Variable rt : Runtime.
Hypothesis stringify_not_empty : forall v, JSON_stringify rt v <> "".

Ltac not_empty :=
  unfold not_pdf_type, not_valid_pdf, invalid_date;
  first
    [ apply stringify_not_empty
    | match goal with
      | |- (if Text.is_empty ?s then _ else _) <> _ => destruct s
      end; cbn [append Text.is_empty]; discriminate
    | cbn [append]; discriminate ].

Ltac returns_text :=
  repeat first
    [ apply Returns_bind; intro
    | apply Returns_ret; eexists; split; [ reflexivity | not_empty ]
    | progress cbv zeta
    | match goal with
      | |- Returns _ (if ?b then _ else _) => destruct b
      | |- Returns _ (match ?x with _ => _ end) => destruct x
      end ].

Lemma tool_try_returns_text call : Returns has_text (tool_try rt call).
Proof.
  destruct call; cbn [tool_try];
    unfold lar_ask_try, lar_upload_document_try, lar_delete_document_try,
      lar_list_documents_try, lar_list_clients_try, lar_create_client_try,
      lar_delete_client_try, lar_edit_client_try, lar_list_cases_try,
      lar_create_case_try, lar_delete_case_try, lar_edit_case_try;
    returns_text.
Qed.

(** X4. Provided [JSON.stringify] never yields the empty text (it does
    not, on a JSON value), every handler returns, in every world, a result
    with one text item whose text is not empty; [lar-ask] replaces an empty
    answer by [No se recibió respuesta del servidor.]. *)
Theorem X4_text_never_empty call w log :
  exists result log' t,
    handle rt call w log = (Normal result, log')
    /\ content result = [mkContent "text" t]
    /\ t <> "".
Proof.
  rewrite handle_try_catch. unfold try_catch.
  destruct (tool_try rt call w log) as [[r | e] log1] eqn:E.
  - destruct (tool_try_returns_text call w log r log1 E) as (t & Hc & Ht).
    now exists r, log1, t.
  - unfold report, ret.
    destruct (has_text_words (catch_words call) (error_message e)
                (catch_words_not_empty call)) as (t & Hc & Ht).
    exists (text_result (catch_words call ++ error_message e)), log1, t.
    auto.
Qed.

End TextOfAResult.

(** C1. Whatever the world answers, a tool handler completes normally with
    one result whose [content] is a single text item: no failure raised
    inside the body gets past the handler.  When the body fails, the
    result is that text alone, the words of the handler's [catch] clause
    followed by the failure's message, which is not empty; and where
    [JSON.stringify] never yields the empty text, the text of the result is
    not empty on any run, failed or not. *)
Theorem C1_handler_always_returns_result rt call w log :
  exists result log' t,
    handle rt call w log = (Normal result, log')
    /\ content result = [mkContent "text" t]
    /\ (forall e log1,
           tool_try rt call w log = (Throw e, log1) ->
           result = text_result (catch_words call ++ error_message e)
           /\ log' = log1
           /\ t = catch_words call ++ error_message e
           /\ t <> "")
    /\ ((forall v, JSON_stringify rt v <> "") -> t <> "").
Proof.
  rewrite handle_try_catch. unfold try_catch.
  destruct (tool_try rt call w log) as [[r | e] log1] eqn:E.
  - destruct (tool_try_answers rt call w log r log1 E) as (t & Ht).
    exists r, log1, t.
    split; [ reflexivity | ]. split; [ exact Ht | ].
    split; [ intros e log2 H; discriminate H | ].
    intros Hstringify.
    destruct (tool_try_returns_text rt Hstringify call w log r log1 E)
      as (t' & Hc & Hne).
    rewrite Ht in Hc. now inversion Hc; subst.
  - unfold report, ret.
    assert (Ht : catch_words call ++ error_message e <> "").
    { pose proof (catch_words_not_empty call) as H.
      destruct (catch_words call); [ contradiction | discriminate ]. }
    exists (text_result (catch_words call ++ error_message e)), log1,
      (catch_words call ++ error_message e).
    split; [ reflexivity | ]. split; [ reflexivity | ].
    split; [ | intros _; exact Ht ].
    intros e' log2 H. inversion H; subst. auto.
Qed.

(** ** The two functions of [login.ts] *)

(** X5. [loginAPI] makes a request when [API_URL], [API_EMAIL] and
    [API_PASSWORD] are all set to non-empty values, and only then: one
    [POST] of the two credentials to [API_URL/api/auth/login].  A variable
    set to the empty string counts as missing.  A rejection by [axios] is
    thrown on with its message, and [data.token] is returned as it is: an
    answer without a token gives [undefined], not an error. *)
Theorem X5_loginAPI w log :
  (not_configured (env w) = true ->
   loginAPI w log = (Throw (mkError config_error), log))
  /\ (not_configured (env w) = false ->
      snd (loginAPI w log) = (log ++ [ViaAxios (login_request (env w))])%list
      /\ (forall msg,
             axios_answer w (List.length log) (login_request (env w))
               = AxiosRejected msg ->
             fst (loginAPI w log) = Throw (mkError msg))
      /\ (forall fields,
             axios_answer w (List.length log) (login_request (env w))
               = AxiosResolved (JObj fields) ->
             fst (loginAPI w log) = Normal (JS.field "token" fields))
      /\ (forall data,
             axios_answer w (List.length log) (login_request (env w))
               = AxiosResolved data ->
             data <> JNull -> data <> JUndefined ->
             (forall fields, data <> JObj fields) ->
             fst (loginAPI w log) = Normal JUndefined)).
Proof.
  unfold not_configured, login_request, loginAPI. split; intros H; crunch; rewrite H.
  - reflexivity.
  - crunch. split; [ now destruct (axios_answer w _ _) | ].
    split; [ | split ].
    + intros msg ->. reflexivity.
    + intros fields ->. reflexivity.
    + intros data -> Hn Hu Ho.
      destruct data; try reflexivity; try contradiction.
      now destruct (Ho fields).
Qed.

(** X6. [getUserId] logs in again before it asks for the identifier.
    With the configuration missing it throws the configuration error and
    makes no call; a login that fails is thrown on as it is, with the calls
    of the login alone, so that a rejected login leaves the login request
    as the one call.  After a login answered with an object, it makes the
    login request followed by one [GET] of [API_URL/api/auth/user-id] that
    carries the token of that login; a rejection of that request is thrown
    on with its message, and [data.userId] of its answer is returned as it
    is. *)
Theorem X6_getUserId w log :
  (not_configured (env w) = true ->
   getUserId w log = (Throw (mkError config_error), log))
  /\ (forall e log1,
         loginAPI w log = (Throw e, log1) ->
         getUserId w log = (Throw e, log1))
  /\ (not_configured (env w) = false ->
      (forall msg,
          axios_answer w (List.length log) (login_request (env w))
            = AxiosRejected msg ->
          getUserId w log
          = (Throw (mkError msg),
             (log ++ [ViaAxios (login_request (env w))])%list))
      /\ (forall fields,
             axios_answer w (List.length log) (login_request (env w))
               = AxiosResolved (JObj fields) ->
             let asked := user_id_request (env w) (JS.field "token" fields) in
             snd (getUserId w log)
             = (log ++ [ViaAxios (login_request (env w)); ViaAxios asked])%list
             /\ (forall msg,
                    axios_answer w (List.length log + 1) asked
                      = AxiosRejected msg ->
                    fst (getUserId w log) = Throw (mkError msg))
             /\ (forall answer,
                    axios_answer w (List.length log + 1) asked
                      = AxiosResolved (JObj answer) ->
                    fst (getUserId w log)
                    = Normal (JS.field "userId" answer)))).
Proof.
  split; [ | split ].
  - intros H. unfold getUserId, loginAPI, not_configured in *. crunch.
    now rewrite H.
  - intros e log1 H. unfold getUserId. crunch. now rewrite H.
  - intros H. unfold getUserId, loginAPI, login_request, user_id_request,
      not_configured in *.
    split.
    + intros msg Hlogin. crunch. rewrite H. crunch. now rewrite Hlogin.
    + intros fields Hlogin. crunch. rewrite H. crunch.
      rewrite Hlogin. cbn [get_prop]. crunch.
      rewrite length_app. cbn [List.length].
      split; [ | split ].
      * destruct (axios_answer w (List.length log + 1) _) as [ msg | data ];
          cbv beta iota; rewrite <- app_assoc; reflexivity.
      * intros msg ->. reflexivity.
      * intros answer ->. reflexivity.
Qed.

(** ** The tools one by one *)

Section ToolByTool.

Variable rt : Runtime.

(** X7. When the [GET] of [lar-edit-client] or [lar-edit-case] is answered
    outside the 2xx range, the handler stops there: its result names the
    status and the body of that answer, and it makes no further call,
    neither [getUserId] nor the [PUT]. *)
Theorem X7_edit_stops_when_fetch_fails call path w log tokenJWT log1 response t :
  edit_path call = Some path ->
  loginAPI w log = (Normal tokenJWT, log1) ->
  fetch_answer w (List.length log1) (get_request w path tokenJWT)
    = FetchResolved response ->
  ok response = false ->
  text response = Normal t ->
  handle rt call w log
  = (Normal (text_result (edit_fetch_words call
                          ++ Text.of_Z (status response) ++ " - " ++ t)),
     (log1 ++ [ViaFetch (get_request w path tokenJWT)])%list).
Proof.
  intros Hpath Hlogin Hanswer Hok Ht.
  destruct call; try discriminate; cbn [edit_path] in Hpath;
    unfold get_request in *;
    pose proof (f_equal (fun o => match o with Some p => p | None => path end) Hpath) as Hp;
    cbv beta iota in Hp; subst path; cbn [edit_fetch_words];
    unfold_handlers; run; reflexivity.
Qed.

(** X8. A court date that is given, not empty, and that [new Date] cannot
    read stops [lar-create-case] and [lar-edit-case] before they send: in
    no world does the handler make a [POST] or a [PUT], and
    [lar-create-case] answers with the message on the date format once the
    login and [getUserId] have succeeded. *)
Theorem X8_unreadable_court_date courtDate :
  courtDate <> "" ->
  Date_toISOString rt courtDate = None ->
  (forall title description status_ clientId w log,
      exists d,
        snd (handle rt (LarCreateCase title description status_
                          (Some courtDate) clientId) w log) = (log ++ d)%list
        /\ Forall (fun c => is_send c = false) d)
  /\ (forall caseId title description status_ clientId assignedUserId w log,
         exists d,
           snd (handle rt (LarEditCase caseId title description status_
                             (Some courtDate) clientId assignedUserId) w log)
           = (log ++ d)%list
           /\ Forall (fun c => is_send c = false) d)
  /\ (forall title description status_ clientId w log tokenJWT log1 idUser log2,
         loginAPI w log = (Normal tokenJWT, log1) ->
         getUserId w log1 = (Normal idUser, log2) ->
         handle rt (LarCreateCase title description status_
                      (Some courtDate) clientId) w log
         = (Normal (text_result invalid_date), log2)).
Proof.
  intros Hne Hdate.
  assert (Htruthy : truthy_text (Some courtDate) = Some courtDate)
    by (destruct courtDate; [ contradiction | reflexivity ]).
  split; [ | split ].
  - intros title description status_ clientId w log.
    assert (H : Quiet (handle rt (LarCreateCase title description status_
                                    (Some courtDate) clientId))).
    { unfold_handlers. rewrite Htruthy.
      intros w' log0 c log' E. unfold try_catch in E.
      assert (Hq : Quiet (tokenJWT <- loginAPI ;; assignedUserId <- getUserId ;;
                          apiUrl <- endpoint "/api/cases" ;;
                          @ret ToolResult (text_result invalid_date))) by quiet.
      match type of E with
      | context [match ?m w' log0 with _ => _ end] =>
          assert (Em : m w' log0
                       = (tokenJWT <- loginAPI ;; assignedUserId <- getUserId ;;
                          apiUrl <- endpoint "/api/cases" ;;
                          @ret ToolResult (text_result invalid_date)) w' log0)
            by (crunch; rewrite Hdate; reflexivity);
          rewrite Em in E
      end.
      destruct ((tokenJWT <- loginAPI ;; assignedUserId <- getUserId ;;
                 apiUrl <- endpoint "/api/cases" ;;
                 @ret ToolResult (text_result invalid_date)) w' log0)
        as [[r | e] l] eqn:Eq;
        destruct (Hq _ _ _ _ Eq) as (d & -> & F);
        unfold report, ret in E; inversion E; subst; eauto. }
    destruct (handle rt _ w log) as [c log'] eqn:E.
    exact (H w log c log' E).
  - intros caseId title description status_ clientId assignedUserId w log.
    assert (H : Quiet (handle rt (LarEditCase caseId title description status_
                                    (Some courtDate) clientId assignedUserId))).
    { unfold_handlers. rewrite Htruthy.
      intros w' log0 c log' E. unfold try_catch in E.
      set (stop :=
             tokenJWT <- loginAPI ;;
             apiUrl <- endpoint ("/api/cases/" ++ Text.of_pos caseId) ;;
             getResponse <- fetch (mkRequest GET apiUrl
                                     (json_get_headers tokenJWT) NoBody) ;;
             if negb (ok getResponse) then
               errorText <- lift (text getResponse) ;;
               ret (text_result ("Error al obtener el caso para editar: "
                                 ++ Text.of_Z (status getResponse)
                                 ++ " - " ++ errorText))
             else
               currentCase <- lift (json rt getResponse) ;;
               data <- updatedCaseData currentCase title description status_
                         clientId assignedUserId ;;
               @ret ToolResult (text_result invalid_date)).
      assert (Hq : Quiet stop) by (unfold stop; quiet).
      match type of E with
      | context [match ?m w' log0 with _ => _ end] =>
          assert (Em : m w' log0 = stop w' log0)
            by (unfold stop; crunch; rewrite Hdate; reflexivity);
          rewrite Em in E
      end.
      destruct (stop w' log0) as [[r | e] l] eqn:Eq;
        destruct (Hq _ _ _ _ Eq) as (d & -> & F);
        unfold report, ret in E; inversion E; subst; eauto. }
    destruct (handle rt _ w log) as [c log'] eqn:E.
    exact (H w log c log' E).
  - intros title description status_ clientId w log tokenJWT log1 idUser log2
      Hlogin Huser.
    unfold_handlers. rewrite Htruthy. run. reflexivity.
Qed.

(** X9. When the [DELETE] of [lar-delete-client] is answered outside the
    2xx range, the result is the message about associated cases exactly
    when the status is 400 and the body contains [associated cases], in
    these letters; in every other case it is the general message with
    the status and the body. *)
Theorem X9_delete_client_refused clientId w log tokenJWT log1 response errorText :
  let request :=
    delete_request w ("/api/clients/" ++ Text.of_pos clientId) tokenJWT in
  loginAPI w log = (Normal tokenJWT, log1) ->
  fetch_answer w (List.length log1) request = FetchResolved response ->
  ok response = false ->
  text response = Normal errorText ->
  exists t,
    handle rt (LarDeleteClient clientId) w log
    = (Normal (text_result t), (log1 ++ [ViaFetch request])%list)
    /\ (t = has_cases
        <-> status response = 400%Z
            /\ Text.includes "associated cases" errorText = true)
    /\ (t <> has_cases ->
        t = "Error al eliminar el cliente: "
            ++ Text.of_Z (status response) ++ " - " ++ errorText).
Proof.
  intros request Hlogin Hanswer Hok Ht. subst request.
  unfold delete_request in *. unfold_handlers. run.
  destruct (status response =? 400)%Z eqn:Es;
    destruct (Text.includes "associated cases" errorText) eqn:Ei;
    cbn [andb]; eexists; (split; [ reflexivity | ]).
  - apply Z.eqb_eq in Es. split; [ tauto | ]. intros H. now destruct H.
  - split; [ | reflexivity ].
    split; [ discriminate | intros [_ H]; discriminate ].
  - apply Z.eqb_neq in Es. split; [ | reflexivity ].
    split; [ discriminate | intros [H _]; contradiction ].
  - apply Z.eqb_neq in Es. split; [ | reflexivity ].
    split; [ discriminate | intros [H _]; contradiction ].
Qed.

(** X10. [lar-create-client] leaves an address or notes given as the
    empty string out of the client it posts, as if they had not been
    given, where [lar-edit-client] would send the empty string: the
    [POST] carries [idUser], [name] and [contactInformation], and
    [address] and [notes] only when they are given and not empty. *)
Theorem X10_create_client_drops_empty name contactInformation address notes
    w log tokenJWT log1 idUser log2 :
  loginAPI w log = (Normal tokenJWT, log1) ->
  getUserId w log1 = (Normal idUser, log2) ->
  exists data,
    snd (handle rt (LarCreateClient name contactInformation address notes) w log)
    = (log2 ++ [ViaFetch (post_request w "/api/clients" tokenJWT data)])%list
    /\ JS.field "idUser" data = idUser
    /\ JS.field "name" data = JStr name
    /\ JS.field "contactInformation" data = JStr contactInformation
    /\ JS.field "address" data = JS.of_option JStr (truthy_text address)
    /\ JS.field "notes" data = JS.of_option JStr (truthy_text notes).
Proof.
  intros Hlogin Huser.
  unfold post_request. unfold_handlers. run.
  eexists. split.
  - destruct (fetch_answer w (List.length log2) _) as [ msg | response ];
      [ reflexivity | ].
    destruct (text response) as [ t | e ]; [ | reflexivity ].
    destruct (ok response); reflexivity.
  - unfold add_if_truthy.
    destruct (truthy_text address), (truthy_text notes); repeat split.
Qed.

(** X11. The merge of [lar-edit-client] called with no field, on any
    fetched object: [name] and [contactInformation] are copied as they are
    (missing ones stay missing), while [address] and [notes] are copied
    only when truthy, so that an empty address of the fetched client is
    not sent back. *)
Theorem X11_edit_client_copies idUser fields w log :
  exists data,
    updatedClientData idUser (JObj fields) None None None None w log
    = (Normal data, log)
    /\ JS.field "idUser" data = idUser
    /\ JS.field "name" data = JS.field "name" fields
    /\ JS.field "contactInformation" data = JS.field "contactInformation" fields
    /\ JS.field "address" data = kept (JS.field "address" fields)
    /\ JS.field "notes" data = kept (JS.field "notes" fields).
Proof.
  unfold updatedClientData, keep_if_truthy, kept. crunch. cbn [get_prop].
  destruct (JS.truthy (JS.field "address" fields)),
           (JS.truthy (JS.field "notes" fields));
    eexists; (split; [ reflexivity | repeat split ]).
Qed.

(** X12. The merge of [lar-edit-case] called without an assignee: the
    case goes to the logged-in user, whoever the fetched case is assigned
    to, and the fields that are not given keep the fetched value. *)
Theorem X12_edit_case_reassigns fields title description status_ clientId
    w log idUser log2 :
  getUserId w log = (Normal idUser, log2) ->
  exists data,
    updatedCaseData (JObj fields) title description status_ clientId None w log
    = (Normal data, log2)
    /\ JS.field "assignedUserId" data = idUser
    /\ (truthy_text title = None ->
        JS.field "title" data = JS.field "title" fields)
    /\ (description = None ->
        JS.field "description" data = JS.field "description" fields)
    /\ (status_ = None -> JS.field "status" data = JS.field "status" fields)
    /\ (clientId = None ->
        JS.field "clientId" data = JS.field "clientId" fields).
Proof.
  intros Huser. unfold updatedCaseData, or_else, defined_or.
  cbn [JS.of_option JS.truthy get_prop].
  assert (Hs : forall s, JS.truthy (JS.of_status s) = true) by now intros [].
  destruct title as [ [ | c rest ] | ], description as [ given | ],
    status_ as [ st | ], clientId as [ n | ];
    cbn [JS.of_option JS.truthy JS.of_pos Text.is_empty negb Z.eqb];
    rewrite ?Hs; crunch; rewrite Huser;
    eexists; (split; [ reflexivity | ]);
    repeat split; intros; try discriminate; reflexivity.
Qed.

(** X13. When the fetched case is [null] (a 2xx answer whose body is the
    JSON text [null]) and no title is given, [lar-edit-case] fails on
    reading [currentCase.title]: it reports the [TypeError] and makes no
    call after the [GET]. *)
Theorem X13_edit_case_null_entity caseId title description status_ courtDate
    clientId assignedUserId w log tokenJWT log1 response :
  let request :=
    get_request w ("/api/cases/" ++ Text.of_pos caseId) tokenJWT in
  truthy_text title = None ->
  loginAPI w log = (Normal tokenJWT, log1) ->
  fetch_answer w (List.length log1) request = FetchResolved response ->
  ok response = true ->
  json rt response = Normal JNull ->
  handle rt (LarEditCase caseId title description status_ courtDate clientId
               assignedUserId) w log
  = (Normal (text_result
               "Error en el proceso: Cannot read properties of null (reading 'title')"),
     (log1 ++ [ViaFetch request])%list).
Proof.
  intros request Htitle Hlogin Hanswer Hok Hjson. subst request.
  unfold get_request in *. unfold_handlers.
  cbv beta iota zeta
      delta [bind ret lift throw try_catch endpoint getenv fetch report negb].
  rewrite Hlogin. cbv beta iota. rewrite Hanswer, Hok. cbv beta iota.
  rewrite Hjson. unfold updatedCaseData, or_else.
  assert (Ht : JS.truthy (JS.of_option JStr title) = false).
  { destruct title as [ [ | c title ] | ]; [ reflexivity | discriminate | reflexivity ]. }
  rewrite Ht. reflexivity.
Qed.

End ToolByTool.

(** ** Streams made of whole frames *)

Lemma run_ascii_bytes bs : forall st,
  Utf8.needed st = O -> forallb is_ascii bs = true ->
  exists st', Utf8.run st bs = (st', bs) /\ Utf8.needed st' = O.
Proof.
  induction bs as [ | b bs IH ]; intros st Hn Ha.
  - exists st. now split.
  - cbn [forallb] in Ha. apply andb_true_iff in Ha as [Hb Ha].
    cbn [Utf8.run]. unfold Utf8.step. rewrite Hn. unfold Utf8.start.
    unfold is_ascii in Hb. rewrite Hb.
    assert (He : Utf8.emit st [b] = (Utf8.mkState [] 0 128 191 true, [b])).
    { unfold Utf8.emit. destruct (Utf8.bom_seen st); [ reflexivity | ].
      unfold Utf8.bytes_eqb.
      destruct (list_eq_dec byte_eq_dec [b] Utf8.bom) as [ E | _ ];
        [ discriminate E | reflexivity ]. }
    rewrite He.
    destruct (IH (Utf8.mkState [] 0 128 191 true) eq_refl Ha) as (st' & -> & Hn').
    exists st'. now split.
Qed.

Lemma decode_stream_ascii s st :
  Utf8.needed st = O -> ascii_text s = true ->
  exists st', Utf8.decode_stream st (list_byte_of_string s) = (st', s)
              /\ Utf8.needed st' = O.
Proof.
  intros Hn Ha. unfold Utf8.decode_stream.
  destruct (run_ascii_bytes _ st Hn Ha) as (st' & -> & Hn').
  exists st'. now rewrite string_of_list_byte_of_string.
Qed.

Lemma decoded_chunks_ascii texts : forall st,
  Utf8.needed st = O -> Forall (fun t => ascii_text t = true) texts ->
  decoded_chunks st (map list_byte_of_string texts) = texts.
Proof.
  induction texts as [ | t texts IH ]; intros st Hn Ha; [ reflexivity | ].
  inversion Ha as [ | ? ? Ht Hts ]; subst.
  cbn [map decoded_chunks].
  destruct (decode_stream_ascii t st Hn Ht) as (st' & -> & Hn').
  now rewrite (IH st' Hn' Hts).
Qed.

Lemma list_byte_of_string_app a b :
  list_byte_of_string (a ++ b)
  = (list_byte_of_string a ++ list_byte_of_string b)%list.
Proof.
  unfold list_byte_of_string.
  induction a as [ | c a IH ]; [ reflexivity | ].
  cbn [append list_ascii_of_string map]. rewrite IH. reflexivity.
Qed.

Lemma ascii_text_app a b :
  ascii_text (a ++ b) = ascii_text a && ascii_text b.
Proof. unfold ascii_text. now rewrite list_byte_of_string_app, forallb_app. Qed.

Lemma no_LF_app a b : no_LF (a ++ b) = no_LF a && no_LF b.
Proof.
  induction a as [ | c a IH ]; [ reflexivity | ].
  cbn [append no_LF]. now rewrite IH, andb_assoc.
Qed.

Lemma rev_cons c cur : Text.rev (String c cur) = Text.rev cur ++ String c "".
Proof.
  unfold Text.rev. cbn [list_ascii_of_string rev].
  generalize (rev (list_ascii_of_string cur)). intros l.
  induction l as [ | x l IH ]; [ reflexivity | ].
  cbn [app string_of_list_ascii append]. now rewrite IH.
Qed.

Lemma rev_push x : forall cur, Text.rev (push x cur) = Text.rev cur ++ x.
Proof.
  induction x as [ | c x IH ]; intros cur; cbn [push].
  - now rewrite append_empty_r.
  - rewrite IH, rev_cons, append_assoc. reflexivity.
Qed.

Lemma prefix_delimiter_other c rest :
  Ascii.eqb c LF_char = false -> prefix frame_delimiter (String c rest) = false.
Proof.
  intros H. unfold frame_delimiter, Text.LF. cbn [append prefix].
  destruct (ascii_dec (ascii_of_nat 10) c) as [ E | _ ]; [ | reflexivity ].
  subst c. unfold LF_char in H. now rewrite Ascii.eqb_refl in H.
Qed.

Lemma prefix_app a b : prefix a (a ++ b) = true.
Proof.
  induction a as [ | c a IH ]; [ now destruct b | ].
  cbn [append prefix].
  destruct (ascii_dec c c) as [ _ | N ]; [ exact IH | now destruct N ].
Qed.

Lemma split_go_delimiter cur rest :
  Text.split_go frame_delimiter 0 cur (frame_delimiter ++ rest)
  = Text.rev cur :: Text.split_go frame_delimiter 0 "" rest.
Proof.
  pose proof (prefix_app frame_delimiter rest) as H.
  change (frame_delimiter ++ rest)
    with (String LF_char (String LF_char rest)) in *.
  cbn [Text.split_go]. rewrite H.
  change (String.length frame_delimiter - 1)%nat with 1%nat.
  reflexivity.
Qed.

(** Splitting a text that opens with a piece on one line. *)
Lemma split_go_piece x : forall cur rest,
  no_LF x = true ->
  Text.split_go frame_delimiter 0 cur (x ++ frame_delimiter ++ rest)
  = Text.rev (push x cur) :: Text.split_go frame_delimiter 0 "" rest.
Proof.
  induction x as [ | c x IH ]; intros cur rest Hx.
  - apply split_go_delimiter.
  - cbn [no_LF] in Hx. apply andb_true_iff in Hx as [Hc Hx].
    apply negb_true_iff in Hc.
    cbn [append push]. cbn [Text.split_go].
    rewrite (prefix_delimiter_other c _ Hc). now apply IH.
Qed.

Lemma split_go_last x : forall cur,
  no_LF x = true ->
  Text.split_go frame_delimiter 0 cur x = [Text.rev (push x cur)].
Proof.
  induction x as [ | c x IH ]; intros cur Hx.
  - reflexivity.
  - cbn [no_LF] in Hx. apply andb_true_iff in Hx as [Hc Hx].
    apply negb_true_iff in Hc.
    cbn [push]. cbn [Text.split_go].
    rewrite (prefix_delimiter_other c _ Hc). now apply IH.
Qed.

Lemma frames_cons p ps : frames (p :: ps) = ("data: " ++ p) ++ frame_delimiter ++ frames ps.
Proof.
  unfold frames. cbn [map]. rewrite concat_all_cons. unfold frame.
  now rewrite !append_assoc.
Qed.

Lemma events_of_frames ps :
  Forall (fun p => plain_payload p = true) ps ->
  events_of (frames ps) = map (fun p => "data: " ++ p) ps.
Proof.
  unfold events_of, Text.split.
  induction ps as [ | p ps IH ]; intros H; [ reflexivity | ].
  inversion H as [ | ? ? Hp Hps ]; subst.
  apply andb_true_iff in Hp as [_ Hp].
  rewrite frames_cons, split_go_piece by (now rewrite no_LF_app, Hp).
  rewrite rev_push. cbn [filter map]. rewrite (IH Hps). reflexivity.
Qed.

Lemma frame_payload_data p : frame_payload ("data: " ++ p) = p.
Proof. unfold frame_payload. now rewrite prefix_app. Qed.

Lemma chunk_payload_frames ps :
  Forall (fun p => plain_payload p = true) ps ->
  chunk_payload (frames ps) = Text.concat_all ps.
Proof.
  intros H. unfold chunk_payload. rewrite (events_of_frames ps H).
  rewrite map_map. f_equal.
  clear H. induction ps as [ | p ps IH ]; [ reflexivity | ].
  cbn [map]. now rewrite IH, frame_payload_data.
Qed.

Lemma ascii_text_frames ps :
  Forall (fun p => plain_payload p = true) ps -> ascii_text (frames ps) = true.
Proof.
  induction ps as [ | p ps IH ]; intros H; [ reflexivity | ].
  inversion H as [ | ? ? Hp Hps ]; subst.
  apply andb_true_iff in Hp as [Hp _].
  rewrite frames_cons, !ascii_text_app, Hp, (IH Hps). reflexivity.
Qed.

(** X14. A body whose chunks each hold whole frames, [data: ] followed by
    a payload of ASCII characters on one line and by two line feeds, is
    read by the loop of [lar-ask] as the payloads put end to end, in
    their order, however the frames are spread over the chunks. *)
Theorem X14_whole_frames (chunks : list (list string)) :
  Forall (Forall (fun p => plain_payload p = true)) chunks ->
  read_loop (map (fun ps => Chunk (list_byte_of_string (frames ps))) chunks)
            Utf8.init ""
  = Normal (Text.concat_all (map Text.concat_all chunks)).
Proof.
  intros H.
  rewrite <- (map_map (fun ps => list_byte_of_string (frames ps)) Chunk).
  rewrite read_loop_chunks. cbn [append].
  rewrite <- (map_map frames list_byte_of_string).
  rewrite decoded_chunks_ascii; [ | reflexivity | ].
  - rewrite map_map. do 2 f_equal.
    induction H as [ | ps chunks Hps _ IH ]; [ reflexivity | ].
    cbn [map]. now rewrite IH, chunk_payload_frames.
  - apply Forall_map.
    eapply Forall_impl; [ | exact H ]. apply ascii_text_frames.
Qed.

(** X15. When a read of the body fails, the loop of [lar-ask] throws the
    failure and what the chunks before it had accumulated is lost:
    [lar-ask] answers with [Error en el proceso: ] and the message of the
    read, without the question and the file id. *)
Theorem X15_failed_read_loses_the_text rt message fileId w log tokenJWT log1
    response values msg rest :
  let request :=
    mkRequest POST (api_url (env w) "/api/chat/ask")
      [("Authorization", bearer tokenJWT);
       ("Content-Type", "application/json");
       ("Accept", "text/event-stream")]
      (JsonBody (JObj [("message", JStr message);
                       ("fileId", JS.of_pos fileId)])) in
  loginAPI w log = (Normal tokenJWT, log1) ->
  fetch_answer w (List.length log1) request = FetchResolved response ->
  ok response = true ->
  stream response = Some (map Chunk values ++ ReadFailed msg :: rest)%list ->
  handle rt (LarAsk message fileId) w log
  = (Normal (text_result ("Error en el proceso: " ++ msg)),
     (log1 ++ [ViaFetch request])%list).
Proof.
  intros request Hlogin Hanswer Hok Hstream. subst request.
  assert (Hloop : forall decoder fullText,
             read_loop (map Chunk values ++ ReadFailed msg :: rest)%list
                       decoder fullText
             = Throw (mkError msg)).
  { clear. induction values as [ | value values IH ]; intros decoder fullText.
    - reflexivity.
    - cbn [map app read_loop].
      destruct (Utf8.decode_stream decoder value). apply IH. }
  unfold_handlers. run. rewrite Hloop. reflexivity.
Qed.

(** X16. A frame that is cut between two chunks is read up to the cut:
    the loop splits each chunk on its own, so the rest of the payload,
    which comes without [data: ] in the next chunk, is dropped. *)
Theorem X16_frame_cut_between_chunks p1 p2 :
  plain_payload p1 = true ->
  plain_payload p2 = true ->
  prefix "data: " p2 = false ->
  read_loop [Chunk (list_byte_of_string ("data: " ++ p1));
             Chunk (list_byte_of_string (p2 ++ frame_delimiter))]
            Utf8.init ""
  = Normal p1.
Proof.
  intros H1 H2 Hprefix.
  apply andb_true_iff in H1 as [Ha1 Hl1].
  apply andb_true_iff in H2 as [Ha2 Hl2].
  change [Chunk (list_byte_of_string ("data: " ++ p1));
          Chunk (list_byte_of_string (p2 ++ frame_delimiter))]
    with (map Chunk (map list_byte_of_string
                       ["data: " ++ p1; p2 ++ frame_delimiter])).
  rewrite read_loop_chunks, decoded_chunks_ascii; [ | reflexivity | ].
  - cbn [map append]. unfold chunk_payload, events_of, Text.split.
    rewrite (split_go_last ("data: " ++ p1)) by (now rewrite no_LF_app, Hl1).
    replace (p2 ++ frame_delimiter) with (p2 ++ frame_delimiter ++ "")
      by (now rewrite append_empty_r).
    rewrite split_go_piece by assumption.
    rewrite !rev_push.
    change (Text.rev "") with "".
    change ("" ++ "data: " ++ p1) with ("data: " ++ p1).
    change ("" ++ p2) with p2.
    change (Text.split_go frame_delimiter 0 "" "") with [""].
    cbn [filter]. change (Text.is_empty ("data: " ++ p1)) with false.
    change (Text.is_empty "") with true. cbn [negb map].
    rewrite frame_payload_data.
    assert (H2 : Text.concat_all
                   (map frame_payload
                      (if negb (Text.is_empty p2) then [p2] else [])) = "").
    { destruct p2 as [ | c p2 ]; [ reflexivity | ].
      cbn [Text.is_empty negb map]. unfold frame_payload.
      now rewrite Hprefix. }
    rewrite H2, !concat_all_cons. change (Text.concat_all []) with "".
    now rewrite !append_empty_r.
  - repeat constructor; rewrite ?ascii_text_app, ?Ha1, ?Ha2; reflexivity.
Qed.

(** ** Every chunk, frame by frame *)

Lemma prefix_delimiter_two c b rest :
  Ascii.eqb c LF_char && Ascii.eqb b LF_char = false ->
  prefix frame_delimiter (String c (String b rest)) = false.
Proof.
  intros H. unfold frame_delimiter, Text.LF. cbn [append prefix].
  destruct (ascii_dec (ascii_of_nat 10) c) as [ Ec | _ ]; [ | reflexivity ].
  destruct (ascii_dec (ascii_of_nat 10) b) as [ Eb | _ ]; [ | reflexivity ].
  subst c b. unfold LF_char in H. now rewrite Ascii.eqb_refl in H.
Qed.

Lemma prefix_delimiter_one c : prefix frame_delimiter (String c "") = false.
Proof.
  unfold frame_delimiter, Text.LF. cbn [append prefix].
  now destruct (ascii_dec (ascii_of_nat 10) c).
Qed.

Lemma unbroken_step c x :
  unbroken (String c x) = true -> unbroken x = true.
Proof.
  destruct x as [ | b x ]; [ reflexivity | ].
  cbn [unbroken]. intros H. now apply andb_true_iff in H.
Qed.

Lemma unbroken_head c b x :
  unbroken (String c (String b x)) = true ->
  Ascii.eqb c LF_char && Ascii.eqb b LF_char = false.
Proof.
  cbn [unbroken]. intros H. apply andb_true_iff in H as [H _].
  now apply negb_true_iff in H.
Qed.

(** Splitting a text that opens with a piece before a double newline. *)
Lemma split_go_whole x : forall cur rest,
  unbroken (x ++ String LF_char "") = true ->
  Text.split_go frame_delimiter 0 cur (x ++ frame_delimiter ++ rest)
  = Text.rev (push x cur) :: Text.split_go frame_delimiter 0 "" rest.
Proof.
  induction x as [ | c x IH ]; intros cur rest Hx.
  - apply split_go_delimiter.
  - cbn [append push] in *.
    assert (Hp : prefix frame_delimiter (String c (x ++ frame_delimiter ++ rest))
                 = false).
    { destruct x as [ | b x ].
      - change ("" ++ frame_delimiter ++ rest)
          with (String LF_char (String LF_char rest)).
        apply prefix_delimiter_two. exact (unbroken_head _ _ _ Hx).
      - cbn [append] in *. apply prefix_delimiter_two.
        exact (unbroken_head _ _ _ Hx). }
    cbn [Text.split_go]. rewrite Hp.
    apply IH. exact (unbroken_step _ _ Hx).
Qed.

Lemma split_go_end x : forall cur,
  unbroken x = true ->
  Text.split_go frame_delimiter 0 cur x = [Text.rev (push x cur)].
Proof.
  induction x as [ | c x IH ]; intros cur Hx; [ reflexivity | ].
  assert (Hp : prefix frame_delimiter (String c x) = false).
  { destruct x as [ | b x ]; [ apply prefix_delimiter_one | ].
    apply prefix_delimiter_two. exact (unbroken_head _ _ _ Hx). }
  cbn [push]. cbn [Text.split_go]. rewrite Hp.
  apply IH. exact (unbroken_step _ _ Hx).
Qed.

Lemma rev_empty : Text.rev "" = "".
Proof. reflexivity. Qed.

(** [split] gives back the texts that were joined. *)
Lemma split_joined texts :
  between_newlines texts = true ->
  Text.split frame_delimiter (joined texts) = texts.
Proof.
  unfold Text.split.
  induction texts as [ | text rest IH ]; [ discriminate | ].
  destruct rest as [ | next rest ].
  - cbn [joined between_newlines]. intros H.
    now rewrite split_go_end, rev_push, rev_empty.
  - intros H. change (between_newlines (text :: next :: rest))
      with (unbroken (text ++ String LF_char "")
            && between_newlines (next :: rest)) in H.
    apply andb_true_iff in H as [Htext Hrest].
    change (joined (text :: next :: rest))
      with (text ++ frame_delimiter ++ joined (next :: rest)).
    rewrite split_go_whole, rev_push, rev_empty by exact Htext.
    now rewrite (IH Hrest).
Qed.

Lemma frame_payload_piece f :
  lawful f = true -> frame_payload (piece_text f) = piece_payload f.
Proof.
  destruct f as [ payload | text ]; cbn [lawful piece_text piece_payload].
  - intros _. apply frame_payload_data.
  - intros H. apply negb_true_iff in H. unfold frame_payload. now rewrite H.
Qed.

(** The empty frames that [filter(Boolean)] drops add nothing. *)
Lemma payload_of_events texts :
  Text.concat_all
    (map frame_payload
       (filter (fun event => negb (Text.is_empty event)) texts))
  = Text.concat_all (map frame_payload texts).
Proof.
  induction texts as [ | text texts IH ]; [ reflexivity | ].
  destruct text as [ | c text ]; cbn [filter Text.is_empty negb map].
  - rewrite IH, concat_all_cons. reflexivity.
  - now rewrite !concat_all_cons, IH.
Qed.

Lemma chunk_payload_pieces c :
  well_cut c = true -> chunk_payload (chunk_text c) = chunk_says c.
Proof.
  unfold well_cut, chunk_payload, chunk_text, chunk_says, events_of.
  intros H. apply andb_true_iff in H as [Hcut Hlawful].
  rewrite (split_joined _ Hcut), payload_of_events, map_map. f_equal.
  clear Hcut. induction c as [ | f c IH ]; [ reflexivity | ].
  cbn [forallb] in Hlawful. apply andb_true_iff in Hlawful as [Hf Hc].
  cbn [map]. now rewrite (frame_payload_piece f Hf), (IH Hc).
Qed.

(** Every text lies between double newlines in one way. *)
Lemma joined_texts s :
  (exists texts, between_newlines texts = true /\ joined texts = s)
  /\ (forall c, exists texts,
         between_newlines texts = true /\ joined texts = String c s).
Proof.
  induction s as [ | b s [IHs IHb] ].
  - split; [ now exists [""] | intros c; now exists [String c ""] ].
  - split; [ exact (IHb b) | ].
    intros a.
    destruct (Ascii.eqb a LF_char && Ascii.eqb b LF_char) eqn:Hab.
    + apply andb_true_iff in Hab as [Ha Hb].
      apply Ascii.eqb_eq in Ha, Hb. subst a b.
      destruct IHs as ([ | text rest ] & Hcut & Hjoin); [ discriminate | ].
      exists ("" :: text :: rest). split.
      * change (between_newlines ("" :: text :: rest))
          with (true && between_newlines (text :: rest)).
        exact Hcut.
      * change (joined ("" :: text :: rest))
          with (String LF_char (String LF_char (joined (text :: rest)))).
        now rewrite Hjoin.
    + destruct (IHb b) as ([ | text rest ] & Hcut & Hjoin); [ discriminate | ].
      exists (String a text :: rest).
      destruct rest as [ | next rest ].
      * cbn [joined between_newlines] in *. subst text. split; [ | reflexivity ].
        cbn [unbroken]. rewrite Hab. exact Hcut.
      * change (between_newlines (text :: next :: rest))
          with (unbroken (text ++ String LF_char "")
                && between_newlines (next :: rest)) in Hcut.
        apply andb_true_iff in Hcut as [Htext Hrest].
        change (joined (text :: next :: rest))
          with (text ++ double_newline ++ joined (next :: rest)) in Hjoin.
        split.
        -- change (between_newlines (String a text :: next :: rest))
             with (unbroken (String a (text ++ String LF_char ""))
                   && between_newlines (next :: rest)).
           rewrite Hrest, andb_true_r.
           destruct text as [ | x text ].
           ++ cbn [append] in Hjoin. injection Hjoin as Hb _.
              cbn [append unbroken]. rewrite <- Hb in Hab.
              now rewrite Hab.
           ++ cbn [append] in Hjoin, Htext. injection Hjoin as Hx _.
              subst x. cbn [append]. cbn [unbroken]. rewrite Hab.
              exact Htext.
        -- change (joined (String a text :: next :: rest))
             with (String a (text ++ double_newline ++ joined (next :: rest))).
           now rewrite Hjoin.
Qed.

Lemma prefix_cut p : forall t,
  prefix p t = true -> exists r, t = p ++ r.
Proof.
  induction p as [ | c p IH ]; intros t H.
  - now exists t.
  - destruct t as [ | c' t ]; [ discriminate | ].
    cbn [prefix] in H. destruct (ascii_dec c c') as [ <- | _ ]; [ | discriminate ].
    destruct (IH t H) as (r & ->). now exists r.
Qed.

Lemma pieces_of texts :
  exists c, map piece_text c = texts /\ forallb lawful c = true.
Proof.
  induction texts as [ | text texts (c & Hc & Hl) ]; [ now exists [] | ].
  destruct (prefix "data: " text) eqn:Hp.
  - destruct (prefix_cut _ _ Hp) as (r & ->).
    exists (Data r :: c). cbn [map forallb lawful piece_text].
    now rewrite Hc, Hl.
  - exists (Other text :: c). cbn [map forallb lawful piece_text].
    now rewrite Hc, Hl, Hp.
Qed.

(** C8. The loop of [lar-ask] reads a body chunk by chunk.  Each decoded
    chunk is a list of frames with a double newline between them; what the
    loop accumulates is, chunk after chunk and frame after frame, what
    follows [data: ] in the frames that open with these letters, and
    nothing for the other frames, the empty ones included.  Every text is
    such a list of frames.  The chunks [data: Hello\n\n] and
    [data: World\n\n] accumulate to [HelloWorld]. *)
Theorem C8_stream_decoder :
  (forall values chunks,
      decoded_chunks Utf8.init values = map chunk_text chunks ->
      Forall (fun c => well_cut c = true) chunks ->
      read_loop (map Chunk values) Utf8.init ""
      = Normal (Text.concat_all (map chunk_says chunks)))
  /\ (forall chunk, exists c, well_cut c = true /\ chunk_text c = chunk)
  /\ read_loop
       [Chunk (list_byte_of_string ("data: Hello" ++ double_newline));
        Chunk (list_byte_of_string ("data: World" ++ double_newline))]
       Utf8.init ""
     = Normal "HelloWorld".
Proof.
  split; [ | split; [ | reflexivity ] ].
  - intros values chunks Hdecoded Hcut.
    rewrite read_loop_chunks, Hdecoded, map_map. cbn [append]. f_equal. f_equal.
    clear Hdecoded. induction Hcut as [ | c chunks Hc _ IH ]; [ reflexivity | ].
    cbn [map]. now rewrite (chunk_payload_pieces c Hc), IH.
  - intros chunk.
    destruct (proj1 (joined_texts chunk)) as (texts & Hcut & Hjoin).
    destruct (pieces_of texts) as (c & Hc & Hl).
    exists c. unfold well_cut, chunk_text. now rewrite Hc, Hcut, Hl, Hjoin.
Qed.

(** ** Uploading and listing *)

Section UploadAndList.

Variable rt : Runtime.

(** X17. Once [lar-upload-document] has posted the document and got a
    2xx answer, the text of its result shows [Id], else [id], of the
    answer (the first that is truthy), else [desconocido]; but when the
    body of the answer is the JSON text [null], reading [result.Id] fails
    and the tool reports an error although the document was uploaded. *)
Theorem X17_upload_answer name url w log response bytes tokenJWT log1
    uploadResponse t :
  fetch_answer w (List.length log) (download_request url)
    = FetchResolved response ->
  has_pdf_type (content_type response) = true ->
  arrayBuffer response = Normal bytes ->
  Buffer_toString (firstn 5 bytes) = pdf_magic ->
  loginAPI w (log ++ [ViaFetch (download_request url)])%list
    = (Normal tokenJWT, log1) ->
  fetch_answer w (List.length log1) (upload_request w tokenJWT name bytes)
    = FetchResolved uploadResponse ->
  ok uploadResponse = true ->
  text uploadResponse = Normal t ->
  (JSON_parse rt t = inr JNull ->
   handle rt (LarUploadDocument name url) w log
   = (Normal (text_result
                "Error en el proceso: Cannot read properties of null (reading 'Id')"),
      (log1 ++ [ViaFetch (upload_request w tokenJWT name bytes)])%list))
  /\ (forall fields,
         JSON_parse rt t = inr (JObj fields) ->
         handle rt (LarUploadDocument name url) w log
         = (Normal (mkResult
                      [mkContent "text"
                         ("Documento subido correctamente. ID: "
                          ++ JS.toString (shown_id fields))]
                      [("apiResponse", JObj fields)]),
            (log1 ++ [ViaFetch (upload_request w tokenJWT name bytes)])%list)).
Proof.
  intros Hdownload Htype Hbytes Hmagic Hlogin Hupload Hok Ht.
  apply String.eqb_eq in Hmagic.
  unfold download_request, upload_request in *.
  split; [ intros Hparse | intros fields Hparse ];
    unfold_handlers; crunch; rewrite Hdownload, Htype; crunch;
    rewrite Hbytes, Hmagic; crunch; rewrite Hlogin; crunch;
    rewrite Hupload, Ht, Hok; crunch; rewrite Hparse.
  - reflexivity.
  - cbn [get_prop]. unfold shown_id.
    destruct (JS.truthy (JS.field "Id" fields)); [ reflexivity | ].
    destruct (JS.truthy (JS.field "id" fields)); reflexivity.
Qed.

(** X18. [lar-list-documents] and [lar-list-clients] return what the
    backend lists as it is: whatever value the body of a 2xx answer parses
    to, an empty array and [null] included, the result is its JSON text
    with the value as structured field; only [lar-list-cases] has a message
    of its own for an empty list. *)
Theorem X18_listing_as_it_is call path key w log tokenJWT log1 response listed :
  plain_listing call = Some (path, key) ->
  loginAPI w log = (Normal tokenJWT, log1) ->
  fetch_answer w (List.length log1) (get_request w path tokenJWT)
    = FetchResolved response ->
  ok response = true ->
  json rt response = Normal listed ->
  handle rt call w log
  = (Normal (mkResult [mkContent "text" (JSON_stringify rt listed)]
                      [(key, listed)]),
     (log1 ++ [ViaFetch (get_request w path tokenJWT)])%list).
Proof.
  intros Hcall Hlogin Hanswer Hok Hjson.
  destruct call; try discriminate; cbn [plain_listing] in Hcall;
    injection Hcall as <- <-; unfold get_request in *; unfold_handlers;
    cbv beta iota zeta
        delta [bind ret lift throw try_catch endpoint getenv fetch report negb];
    rewrite Hlogin; cbv beta iota; rewrite Hanswer, Hok; cbv beta iota;
    rewrite Hjson; reflexivity.
Qed.

End UploadAndList.

(** ** The content type *)

Lemma toLowerCase_app a b :
  Text.toLowerCase (a ++ b) = Text.toLowerCase a ++ Text.toLowerCase b.
Proof.
  induction a as [ | c a IH ]; [ reflexivity | ].
  cbn [append Text.toLowerCase]. now rewrite IH.
Qed.

Lemma includes_app needle a b : Text.includes needle (a ++ needle ++ b) = true.
Proof.
  induction a as [ | c a IH ].
  - cbn [append]. destruct (needle ++ b) eqn:E; cbn [Text.includes];
      rewrite <- E, prefix_app; reflexivity.
  - cbn [append Text.includes]. rewrite IH. apply orb_true_r.
Qed.

(** X19. The test on the content type of [lar-upload-document] looks for
    the letters [pdf] anywhere in the header and in any case: a header
    that contains them passes whatever stands around them, so that
    [application/PDF] and [text/x-pdf-like] pass as [application/pdf]
    does. *)
Theorem X19_content_type_contains_pdf before letters after :
  Text.toLowerCase letters = "pdf" ->
  has_pdf_type (Some (before ++ letters ++ after)) = true.
Proof.
  intros H. unfold has_pdf_type, truthy_text.
  assert (Hne : Text.is_empty (before ++ letters ++ after) = false).
  { destruct before; [ | reflexivity ].
    destruct letters; [ discriminate H | reflexivity ]. }
  rewrite Hne, !toLowerCase_app, H. apply includes_app.
Qed.

(** ** Runs of the properties above *)

Lemma stringify_not_empty v : Demo.stringify v <> "".
Proof.
  unfold Demo.stringify.
  repeat match goal with
         | |- context [match ?x with _ => _ end] => destruct x
         end; discriminate.
Qed.

(** The text of [lar-list-cases] on the array of one case. *)
Lemma X4_witness :
  exists result log' t,
    handle Demo.rt LarListCases (w_cases cases_text) [] = (Normal result, log')
    /\ content result = [mkContent "text" t]
    /\ t <> "".
Proof.
  exact (X4_text_never_empty Demo.rt stringify_not_empty LarListCases
           (w_cases cases_text) []).
Defined.

(** [getUserId] in a world that answers the login and the request. *)
Lemma X6_witness :
  snd (getUserId Runs.w_user []) = user_calls
  /\ fst (getUserId Runs.w_user []) = Normal (JStr "u-1").
Proof.
  destruct (X6_getUserId Runs.w_user []) as (_ & _ & H).
  destruct (H eq_refl) as [_ Hasked].
  destruct (Hasked [("token", JStr "jwt")] eq_refl) as (Hlog & _ & Hid).
  split; [ exact Hlog | exact (Hid [("userId", JStr "u-1")] eq_refl) ].
Defined.

(** [lar-edit-client] for a client the backend does not know. *)
Lemma X7_witness :
  handle Demo.rt (LarEditClient 5 (Some "New name") None None None)
    w_delete_404 []
  = (Normal (text_result
               "Error al obtener el cliente para editar: 404 - Not Found"),
     [login_call; ViaFetch (get_request w_delete_404 "/api/clients/5" token)]).
Proof.
  apply (X7_edit_stops_when_fetch_fails Demo.rt
           (LarEditClient 5 (Some "New name") None None None)
           "/api/clients/5" w_delete_404 [] token [login_call]
           (mkResponse 404 json_type
              (Some [Chunk (list_byte_of_string "Not Found")]))
           "Not Found"); reflexivity.
Defined.

(** [lar-create-case] with a court date in words. *)
Lemma X8_witness :
  handle Demo.rt (LarCreateCase "Lease" None Open (Some "tomorrow") 3)
    w_create_client []
  = (Normal (text_result invalid_date), login_call :: user_calls).
Proof.
  destruct (X8_unreadable_court_date Demo.rt "tomorrow") as (_ & _ & H);
    [ discriminate | reflexivity | ].
  apply (H "Lease" None Open 3%positive w_create_client [] token
           [login_call] (JStr "u-1") (login_call :: user_calls));
    reflexivity.
Defined.

(** [lar-delete-client] for a client with cases. *)
Lemma X9_witness :
  exists t,
    handle Demo.rt (LarDeleteClient 5) Runs.w_client_has_cases []
    = (Normal (text_result t),
       [login_call;
        ViaFetch (delete_request Runs.w_client_has_cases "/api/clients/5" token)])
    /\ t = has_cases.
Proof.
  destruct (X9_delete_client_refused Demo.rt 5 Runs.w_client_has_cases []
              token [login_call]
              (mkResponse 400 json_type
                 (Some [Chunk (list_byte_of_string
                                 "Cannot delete client with associated cases")]))
              "Cannot delete client with associated cases"
              eq_refl eq_refl eq_refl eq_refl) as (t & Hrun & Hiff & _).
  exists t. split; [ exact Hrun | ].
  apply Hiff. split; reflexivity.
Defined.

(** [lar-create-client] with an empty address and with notes. *)
Lemma X10_witness :
  exists data,
    snd (handle Demo.rt (LarCreateClient "Acme" "x" (Some "") (Some "VIP"))
           w_create_client [])
    = (login_call :: user_calls
       ++ [ViaFetch (post_request w_create_client "/api/clients" token data)])%list
    /\ JS.field "address" data = JUndefined
    /\ JS.field "notes" data = JStr "VIP".
Proof.
  destruct (X10_create_client_drops_empty Demo.rt "Acme" "x" (Some "")
              (Some "VIP") w_create_client [] token [login_call]
              (JStr "u-1") (login_call :: user_calls) eq_refl eq_refl)
    as (data & Hcalls & _ & _ & _ & Haddress & Hnotes).
  exists data. auto.
Defined.

(** The merge of [lar-edit-case] on a case assigned to user 9. *)
Lemma X12_witness :
  exists data,
    updatedCaseData
      (JObj [("title", JStr "Old title"); ("assignedUserId", JNum 9)])
      None None None None None Runs.w_user []
    = (Normal data, user_calls)
    /\ JS.field "assignedUserId" data = JStr "u-1"
    /\ JS.field "title" data = JStr "Old title".
Proof.
  destruct (X12_edit_case_reassigns
              [("title", JStr "Old title"); ("assignedUserId", JNum 9)]
              None None None None Runs.w_user [] (JStr "u-1") user_calls
              eq_refl) as (data & Hrun & Hassigned & Htitle & _).
  exists data. split; [ exact Hrun | ].
  split; [ exact Hassigned | exact (Htitle eq_refl) ].
Defined.

(** [lar-edit-case] for a case fetched as [null]. *)
Lemma X13_witness :
  handle Runs.rt (LarEditCase 7 None (Some "d") None None None None)
    Runs.w_null_entity []
  = (Normal (text_result
               "Error en el proceso: Cannot read properties of null (reading 'title')"),
     [login_call;
      ViaFetch (get_request Runs.w_null_entity "/api/cases/7" token)]).
Proof.
  apply (X13_edit_case_null_entity Runs.rt 7 None (Some "d") None None None None
           Runs.w_null_entity [] token [login_call]
           (mkResponse 200 json_type
              (Some [Chunk (list_byte_of_string "null")])));
    reflexivity.
Defined.

(** Three frames in a first chunk, none in the second, one in a third. *)
Lemma X14_witness :
  read_loop
    [Chunk (list_byte_of_string (frames ["Hello"; ", "; "World"]));
     Chunk (list_byte_of_string (frames []));
     Chunk (list_byte_of_string (frames ["!"]))]
    Utf8.init ""
  = Normal "Hello, World!".
Proof.
  apply (X14_whole_frames [["Hello"; ", "; "World"]; []; ["!"]]).
  repeat constructor.
Defined.

(** [lar-ask] on a stream that breaks after [data: Hello]. *)
Lemma X15_witness :
  handle Demo.rt (LarAsk "hi" 3) Runs.w_ask_broken []
  = (Normal (text_result "Error en el proceso: terminated"),
     [login_call;
      ViaFetch
        (mkRequest POST "http://api.test/api/chat/ask"
           [("Authorization", "Bearer jwt");
            ("Content-Type", "application/json");
            ("Accept", "text/event-stream")]
           (JsonBody (JObj [("message", JStr "hi"); ("fileId", JNum 3)])))]).
Proof.
  apply (X15_failed_read_loses_the_text Demo.rt "hi" 3 Runs.w_ask_broken []
           token [login_call] Runs.broken_stream [sse_hello] "terminated"
           [Chunk sse_world]); reflexivity.
Defined.

(** The frame of [Hello] cut after [Hel]. *)
Lemma X16_witness :
  read_loop [Chunk (list_byte_of_string "data: Hel");
             Chunk (list_byte_of_string ("lo" ++ frame_delimiter))]
            Utf8.init ""
  = Normal "Hel".
Proof.
  apply (X16_frame_cut_between_chunks "Hel" "lo"); reflexivity.
Defined.

(** An upload answered with [null]. *)
Lemma X17_witness :
  handle Runs.rt (LarUploadDocument "doc" "http://files.test/doc.pdf")
    Runs.w_upload_null []
  = (Normal (text_result
               "Error en el proceso: Cannot read properties of null (reading 'Id')"),
     [ViaFetch (download_request "http://files.test/doc.pdf");
      login_call;
      ViaFetch (upload_request Runs.w_upload_null token "doc" Runs.pdf_bytes)]).
Proof.
  destruct (X17_upload_answer Runs.rt "doc" "http://files.test/doc.pdf"
              Runs.w_upload_null []
              (mkResponse 200 (Some "application/pdf")
                 (Some [Chunk Runs.pdf_bytes]))
              Runs.pdf_bytes token
              [ViaFetch (download_request "http://files.test/doc.pdf");
               login_call]
              (mkResponse 201 json_type
                 (Some [Chunk (list_byte_of_string "null")]))
              "null"
              eq_refl eq_refl eq_refl eq_refl eq_refl eq_refl eq_refl eq_refl)
    as [Hnull _].
  exact (Hnull eq_refl).
Defined.

(** [lar-list-documents] on an empty list. *)
Lemma X18_witness :
  handle Demo.rt LarListDocuments (w_cases "[]") []
  = (Normal (mkResult [mkContent "text" "[]"] [("documents", JArr [])]),
     [login_call; ViaFetch (get_request (w_cases "[]") "/api/files" token)]).
Proof.
  apply (X18_listing_as_it_is Demo.rt LarListDocuments "/api/files" "documents"
           (w_cases "[]") [] token [login_call]
           (mkResponse 200 json_type
              (Some [Chunk (list_byte_of_string "[]")]))
           (JArr [])); reflexivity.
Defined.

(** Two content types that pass. *)
Lemma X19_witness :
  has_pdf_type (Some "application/PDF") = true
  /\ has_pdf_type (Some "text/x-pdf-like; charset=utf-8") = true.
Proof.
  split.
  - exact (X19_content_type_contains_pdf "application/" "PDF" "" eq_refl).
  - exact (X19_content_type_contains_pdf "text/x-" "pdf"
             "-like; charset=utf-8" eq_refl).
Defined.

(** A failed run of [lar-list-cases]: the text of its result is not empty. *)
Lemma C1_witness :
  exists result log' t,
    handle rt LarListCases w_unconfigured [] = (Normal result, log')
    /\ content result = [mkContent "text" t]
    /\ t = "Error al obtener los casos: " ++ config_error
    /\ t <> "".
Proof.
  destruct (C1_handler_always_returns_result rt LarListCases w_unconfigured [])
    as (result & log' & t & Hrun & Hcontent & Hfailed & Htext).
  exists result, log', t.
  split; [ exact Hrun | ]. split; [ exact Hcontent | ].
  split; [ | exact (Htext stringify_not_empty) ].
  destruct (Hfailed (mkError config_error) [] eq_refl) as (_ & _ & Ht & _).
  exact Ht.
Defined.

(** A chunk whose frames are an event, a data frame and an empty frame,
    followed by a chunk with one data frame. *)
Lemma C8_witness :
  read_loop
    [Chunk (list_byte_of_string
              ("event: ping" ++ double_newline
               ++ "data: Hello" ++ double_newline));
     Chunk (list_byte_of_string ("data: World" ++ double_newline))]
    Utf8.init ""
  = Normal "HelloWorld".
Proof.
  apply (proj1 C8_stream_decoder
           [list_byte_of_string
              ("event: ping" ++ double_newline
               ++ "data: Hello" ++ double_newline);
            list_byte_of_string ("data: World" ++ double_newline)]
           [[Other "event: ping"; Data "Hello"; Other ""];
            [Data "World"; Other ""]]);
    [ reflexivity | repeat constructor ].
Defined.
